(** * CRUD-Basics: the five Express routes of [index.js]

    The service keeps one JSON array of user records in [./data.json].
    Every route reads the whole file, decodes it, works on the decoded
    array in memory and (for the three writing routes) encodes the array
    and overwrites the file.

    The embedding follows the handlers statement by statement.  Each
    handler is a computation in a small state-and-exception monad [Js]
    over a [World] holding the file, the object heap of the running
    handler, the number of [Math.random()] draws and the trace of
    externally visible actions (file reads and writes, console output,
    the HTTP response).  Objects live in the heap and arrays hold
    references to them, so that [requestedUser.name = ...] in the PUT
    route mutates the object the array points to, as in the source.

    The file is taken to exist and to hold a JSON array of objects, which
    is how the service's own writes leave it: its text is the
    [JSON.stringify] of some array of records, and [data_json] is the
    array [JSON.parse] reads back from it.  [JSON.stringify] does not
    keep every value: a non-finite number is written as [null], [-0] as
    [0], and so inside arrays and objects; such values are [VLossy]. *)

From Stdlib Require Import ZArith.
From stdpp Require Import base option list gmap strings.

Local Open Scope Z_scope.

(** ** Values, records, requests *)

(** References to heap-allocated objects. *)
Abbreviation loc := positive.

Section Service.

(** [number] stands for the numbers JSON text holds as they are (the
    finite doubles other than [-0]) and [composite] for the arrays and
    objects it holds as they are; the handlers never look inside
    either. *)
Variables (number composite : Type).

(** What [JSON.stringify] writes in place of a value it does not keep. *)
Inductive written : Type :=
  | WNull
  | WNum (n : number)
  | WComposite (c : composite).

(** The values [JSON.stringify] does not keep ([Infinity], [-Infinity],
    [NaN], [-0], and the arrays and objects holding one of them), each
    with what is written for it. *)
Class Lossy : Type := {
  lossy : Type;
  written_as : lossy → written
}.

Context {L : Lossy}.

(** What a field of a record can hold.  [VUndefined] is also what
    reading an absent property yields: [JSON.stringify] omits a property
    whose value is [undefined], and reading the omitted property after
    [JSON.parse] gives [undefined] again, so the two are one state here. *)
Inductive value : Type :=
  | VUndefined
  | VNull
  | VBool (b : bool)
  | VNum (n : number)
  | VStr (s : string)
  | VComposite (c : composite)
  | VLossy (x : lossy).

(** A user record: [{ id, name, role }]. *)
Record User : Type := mkUser { id : value; name : value; role : value }.

(** What [JSON.parse] reads back where [JSON.stringify] wrote a value,
    and a record. *)
Definition to_json_value (v : value) : value :=
  match v with
  | VLossy x =>
      match written_as x with
      | WNull => VNull
      | WNum n => VNum n
      | WComposite c => VComposite c
      end
  | _ => v
  end.

Definition to_json (u : User) : User :=
  mkUser (to_json_value (id u)) (to_json_value (name u))
    (to_json_value (role u)).

(** The parts of an incoming request the handlers read:
    [req.params.userId] (always a string), [req.body.name] and
    [req.body.role]. *)
Record Request : Type := mkRequest {
  params_userId : string;
  body_name : value;
  body_role : value
}.

(** The argument of [res.json]: an array of objects, one object, or
    [undefined]; and the body that goes out on the wire. *)
Inductive jsref : Type :=
  | RUndefined
  | RObject (l : loc)
  | RArray (ls : list loc).

Inductive body : Type :=
  | BodyNone
  | BodyObject (u : User)
  | BodyArray (us : list User).

(** Externally visible actions of a handler. *)
Inductive event : Type :=
  | EvRead                      (* fs.readFileSync("./data.json") *)
  | EvWrite (us : list User)    (* fs.writeFileSync("./data.json", ...) *)
  | EvLog (us : list User)      (* console.log(array) *)
  | EvJson (b : body)           (* res.json(...) *)
  | EvEnd.                      (* res.end() *)

Inductive error : Type :=
  | TypeError                   (* property access on undefined *)
  | DanglingReference.          (* a reference without an object *)

Record World : Type := mkWorld {
  file : list User;             (* ./data.json is the JSON text of this *)
  heap : gmap loc User;         (* objects of the running handler *)
  draws : nat;                  (* Math.random() calls so far *)
  trace : list event            (* oldest first *)
}.

(** The array [JSON.parse] reads back from [./data.json]. *)
Definition data_json (w : World) : list User := map to_json (file w).

Definition set_data_json (us : list User) (w : World) : World :=
  mkWorld us (heap w) (draws w) (trace w).
Definition set_heap (h : gmap loc User) (w : World) : World :=
  mkWorld (file w) h (draws w) (trace w).
Definition set_draws (n : nat) (w : World) : World :=
  mkWorld (file w) (heap w) n (trace w).
Definition emit_event (e : event) (w : World) : World :=
  mkWorld (file w) (heap w) (draws w) (trace w ++ [e]).

(** ** The monad *)

Inductive outcome (A : Type) : Type :=
  | Return (a : A)
  | Throw (e : error).
Arguments Return {A} a.
Arguments Throw {A} e.

Definition Js (A : Type) : Type := World → outcome A * World.

Definition ret {A} (a : A) : Js A := λ w, (Return a, w).
Definition throw {A} (e : error) : Js A := λ w, (Throw e, w).
Definition bind {A B} (m : Js A) (k : A → Js B) : Js B :=
  λ w, match m w with
       | (Return a, w') => k a w'
       | (Throw e, w') => (Throw e, w')
       end.

Notation "x <- m ;; k" := (bind m (λ x, k))
  (at level 100, m at next level, right associativity).
Notation "m ;;; k" := (bind m (λ _, k))
  (at level 100, right associativity).

Definition emit (e : event) : Js unit := λ w, (Return tt, emit_event e w).

(** ** The runtime the handlers call *)

(** The runtime's [==] between a stored id and the textual path
    parameter, and the numbers [Math.random()] hands out, call by call. *)
Variable loose_eq : value → string → bool.
Variable random_source : nat → number.

(** The text of the file, read and written.  A JSON text is given as
    the array [JSON.parse] reads back from it. *)
Definition fs_readFileSync : Js (list User) :=
  λ w, (Return (data_json w), emit_event EvRead w).

Definition fs_writeFileSync (us : list User) : Js unit :=
  λ w, (Return tt, emit_event (EvWrite us) (set_data_json us w)).

Definition Math_random : Js number :=
  λ w, (Return (random_source (draws w)), set_draws (S (draws w)) w).

(** An object literal: a new object, distinct from every live one. *)
Definition new_object (u : User) : Js loc :=
  λ w, let l := fresh (dom (heap w)) in
       (Return l, set_heap (<[l := u]> (heap w)) w).

(** [JSON.parse] builds one new object per element of the array. *)
Fixpoint JSON_parse (raw : list User) : Js (list loc) :=
  match raw with
  | [] => ret []
  | u :: rest =>
      l <- new_object u ;;
      ls <- JSON_parse rest ;;
      ret (l :: ls)
  end.

(** The objects an array of references points to, now. *)
Definition snapshot (arr : list loc) : Js (list User) :=
  λ w, match mapM (λ l, heap w !! l) arr with
       | Some us => (Return us, w)
       | None => (Throw DanglingReference, w)
       end.

(** [JSON.stringify] of an array of records: the text, given as the
    array [JSON.parse] reads back from it. *)
Definition JSON_stringify (arr : list loc) : Js (list User) :=
  us <- snapshot arr ;; ret (map to_json us).

Definition console_log (arr : list loc) : Js unit :=
  us <- snapshot arr ;; emit (EvLog us).

Definition get_prop (f : User → value) (l : loc) : Js value :=
  λ w, match heap w !! l with
       | Some u => (Return (f u), w)
       | None => (Throw DanglingReference, w)
       end.

(** [target.name = v] and [target.role = v], where [target] is the
    result of [Array.prototype.find]: a reference or [undefined].
    Assigning to a property of [undefined] throws a TypeError. *)
Definition set_prop (upd : value → User → User)
    (target : option loc) (v : value) : Js unit :=
  match target with
  | None => throw TypeError
  | Some l =>
      λ w, match heap w !! l with
           | Some u => (Return tt, set_heap (<[l := upd v u]> (heap w)) w)
           | None => (Throw DanglingReference, w)
           end
  end.

Definition with_name (v : value) (u : User) : User := mkUser (id u) v (role u).
Definition with_role (v : value) (u : User) : User := mkUser (id u) (name u) v.

(** [Array.prototype.find]: the first element the callback accepts, or
    [undefined]. *)
Fixpoint Array_find {A} (cb : A → Js bool) (arr : list A) : Js (option A) :=
  match arr with
  | [] => ret None
  | x :: rest =>
      b <- cb x ;;
      if b then ret (Some x) else Array_find cb rest
  end.

(** [Array.prototype.findIndex]: the index of that element, or [-1]. *)
Fixpoint findIndex_from {A} (k : Z) (cb : A → Js bool) (arr : list A) : Js Z :=
  match arr with
  | [] => ret (-1)
  | x :: rest =>
      b <- cb x ;;
      if b then ret k else findIndex_from (k + 1) cb rest
  end.

Definition Array_findIndex {A} (cb : A → Js bool) (arr : list A) : Js Z :=
  findIndex_from 0 cb arr.

Definition Array_push {A} (arr : list A) (x : A) : list A := arr ++ [x].

(** [Array.prototype.splice(start, deleteCount)], the array it leaves
    behind.  A negative [start] counts from the end, and both the start
    and the count are clamped to the array. *)
Definition Array_splice {A} (start deleteCount : Z) (arr : list A) : list A :=
  let len := Z.of_nat (length arr) in
  let actualStart :=
    if start <? 0 then Z.max (len + start) 0 else Z.min start len in
  let actualDeleteCount := Z.min (Z.max deleteCount 0) (len - actualStart) in
  take (Z.to_nat actualStart) arr
    ++ drop (Z.to_nat (actualStart + actualDeleteCount)) arr.

(** [res.json] sends the JSON text of its argument. *)
Definition res_json (r : jsref) : Js unit :=
  match r with
  | RUndefined => emit (EvJson BodyNone)
  | RObject l =>
      λ w, match heap w !! l with
           | Some u => emit (EvJson (BodyObject (to_json u))) w
           | None => (Throw DanglingReference, w)
           end
  | RArray ls => us <- JSON_stringify ls ;; emit (EvJson (BodyArray us))
  end.

Definition res_end : Js unit := emit EvEnd.

Definition ref_of (o : option loc) : jsref :=
  match o with Some l => RObject l | None => RUndefined end.

(** ** The routes *)

(** [(user) => user.id == req.params.userId] *)
Definition id_matches (req : Request) (user : loc) : Js bool :=
  v <- get_prop id user ;; ret (loose_eq v (params_userId req)).

(** [app.get("/")] *)
Definition app_get_all (req : Request) : Js unit :=
  rawData <- fs_readFileSync ;;
  array <- JSON_parse rawData ;;
  res_json (RArray array).

(** [app.post("/")] *)
Definition app_post (req : Request) : Js unit :=
  rawData <- fs_readFileSync ;;
  array <- JSON_parse rawData ;;
  r <- Math_random ;;
  newUser <- new_object (mkUser (VNum r) (body_name req) (body_role req)) ;;
  let array := Array_push array newUser in
  s <- JSON_stringify array ;;
  fs_writeFileSync s ;;;
  res_end.

(** [app.get("/:userId")] *)
Definition app_get_userId (req : Request) : Js unit :=
  rawData <- fs_readFileSync ;;
  array <- JSON_parse rawData ;;
  requestedUser <- Array_find (id_matches req) array ;;
  res_json (ref_of requestedUser).

(** [app.put("/:userId")] *)
Definition app_put_userId (req : Request) : Js unit :=
  rawData <- fs_readFileSync ;;
  array <- JSON_parse rawData ;;
  requestedUser <- Array_find (id_matches req) array ;;
  set_prop with_name requestedUser (body_name req) ;;;
  set_prop with_role requestedUser (body_role req) ;;;
  console_log array ;;;
  s <- JSON_stringify array ;;
  fs_writeFileSync s ;;;
  res_end.

(** [app.delete("/:userId")] *)
Definition app_delete_userId (req : Request) : Js unit :=
  rawData <- fs_readFileSync ;;
  array <- JSON_parse rawData ;;
  deleteUserIndex <- Array_findIndex (id_matches req) array ;;
  let array := Array_splice deleteUserIndex 1 array in
  console_log array ;;;
  s <- JSON_stringify array ;;
  fs_writeFileSync s ;;;
  res_end.

End Service.

Arguments WNull {number composite}.
Arguments WNum {number composite} n.
Arguments WComposite {number composite} c.
Arguments lossy {number composite} _.
Arguments written_as {number composite _} x.
Arguments VLossy {number composite L} x.
Arguments to_json_value {number composite L} v.
Arguments to_json {number composite L} u.
Arguments VUndefined {number composite L}.
Arguments VNull {number composite L}.
Arguments VBool {number composite L} b.
Arguments VNum {number composite L} n.
Arguments VStr {number composite L} s.
Arguments VComposite {number composite L} c.
Arguments mkUser {number composite L} id name role.
Arguments id {number composite L} u.
Arguments name {number composite L} u.
Arguments role {number composite L} u.
Arguments mkRequest {number composite L} params_userId body_name body_role.
Arguments params_userId {number composite L} r.
Arguments body_name {number composite L} r.
Arguments body_role {number composite L} r.
Arguments BodyNone {number composite L}.
Arguments BodyObject {number composite L} u.
Arguments BodyArray {number composite L} us.
Arguments EvRead {number composite L}.
Arguments EvWrite {number composite L} us.
Arguments EvLog {number composite L} us.
Arguments EvJson {number composite L} b.
Arguments EvEnd {number composite L}.
Arguments mkWorld {number composite L} file heap draws trace.
Arguments file {number composite L} w.
Arguments data_json {number composite L} w.
Arguments heap {number composite L} w.
Arguments draws {number composite L} w.
Arguments trace {number composite L} w.
Arguments Return {A} a.
Arguments Throw {A} e.

Arguments set_data_json {number composite L} us w.
Arguments set_heap {number composite L} h w.
Arguments set_draws {number composite L} n w.
Arguments emit_event {number composite L} e w.
Arguments ret {number composite L A} a _.
Arguments throw {number composite L A} e _.
Arguments bind {number composite L A B} m k _.
Arguments emit {number composite L} e _.
Arguments fs_readFileSync {number composite L} _.
Arguments fs_writeFileSync {number composite L} us _.
Arguments Math_random {number composite L} random_source _.
Arguments new_object {number composite L} u _.
Arguments JSON_parse {number composite L} raw _.
Arguments snapshot {number composite L} arr _.
Arguments JSON_stringify {number composite L} arr _.
Arguments console_log {number composite L} arr _.
Arguments get_prop {number composite L} f l _.
Arguments set_prop {number composite L} upd target v _.
Arguments with_name {number composite L} v u.
Arguments with_role {number composite L} v u.
Arguments Array_find {number composite L A} cb arr _.
Arguments findIndex_from {number composite L A} k cb arr _.
Arguments Array_findIndex {number composite L A} cb arr _.
Arguments res_json {number composite L} r _.
Arguments res_end {number composite L} _.
Arguments id_matches {number composite L} loose_eq req user _.
Arguments app_get_all {number composite L} req _.
Arguments app_post {number composite L} random_source req _.
Arguments app_get_userId {number composite L} loose_eq req _.
Arguments app_put_userId {number composite L} loose_eq req _.
Arguments app_delete_userId {number composite L} loose_eq req _.

(** [user.id == req.params.userId] on a record of the collection. *)
Definition matches {number composite} {L : Lossy number composite} (loose_eq : value number composite → string → bool)
    (req : Request number composite) (u : User number composite) : bool :=
  loose_eq (id u) (params_userId req).

(** [arr] points, in [h], to the records [us], in order. *)
Definition points_to {number composite} {L : Lossy number composite} (h : gmap loc (User number composite))
    (arr : list loc) (us : list (User number composite)) : Prop :=
  Forall2 (λ l u, h !! l = Some u) arr us.

(** What [findIndex] answers for a request on a collection: [-1] when no
    record matches, else the position of the first one that does. *)
Definition found_at {number composite} {L : Lossy number composite}
    (loose_eq : value number composite → string → bool)
    (req : Request number composite) (us : list (User number composite))
    (k : Z) : Prop :=
  (k = -1 ∧ Forall (λ u, matches loose_eq req u = false) us)
  ∨ ∃ pre u post, us = pre ++ u :: post
      ∧ Forall (λ v, matches loose_eq req v = false) pre
      ∧ matches loose_eq req u = true
      ∧ k = Z.of_nat (length pre).

(** The events a handler run from [w] to [w'] added to the trace. *)
Definition added {number composite} {L : Lossy number composite} (w w' : World number composite)
    (evs : list (event number composite)) : Prop :=
  trace w' = trace w ++ evs.

(** No [fs.writeFileSync] among the events. *)
Definition no_write {number composite} {L : Lossy number composite} (evs : list (event number composite)) : Prop :=
  ∀ us, EvWrite us ∉ evs.

(** ** A runtime to run the routes on

    Integer ids, as in the scenarios of the service's description, and
    path parameters written as plain decimal numerals. *)
Module Fixture.

Definition number : Type := Z.
Definition composite : Type := Empty_set.

(** The numbers a request body can bring that JSON does not keep:
    [1e999] and [-1e999] are read as the infinities, [-0] as minus
    zero.  The first two are written as [null], the last as [0]. *)
Inductive lossy_number : Type := Infinity | NegInfinity | NegZero.

#[global] Instance json_lossy : Lossy number composite := {|
  lossy := lossy_number;
  written_as := λ x,
    match x with
    | Infinity | NegInfinity => WNull
    | NegZero => WNum 0
    end
|}.

Definition digit_of (a : Ascii.ascii) : option Z :=
  let n := Z.of_N (Ascii.N_of_ascii a) in
  if (48 <=? n) && (n <=? 57) then Some (n - 48) else None.

Fixpoint digits (acc : Z) (s : string) : option Z :=
  match s with
  | EmptyString => Some acc
  | String a rest =>
      match digit_of a with
      | Some d => digits (10 * acc + d) rest
      | None => None
      end
  end.

(** [StringToNumber] on the integer numerals: the empty string is [0],
    an optional sign is followed by at least one digit.  [None] is
    [NaN]; strings with white space, a fraction, an exponent or a radix
    prefix are not numerals of this fragment. *)
Definition signed_digits (negative : bool) (s : string) : option Z :=
  match s with
  | EmptyString => None
  | String _ _ => (if negative then Z.opp else λ z, z) <$> digits 0 s
  end.

Definition StringToNumber (s : string) : option Z :=
  match s with
  | EmptyString => Some 0
  | String a rest =>
      let c := Ascii.N_of_ascii a in
      if (c =? 45)%N then signed_digits true rest
      else if (c =? 43)%N then signed_digits false rest
      else digits 0 s
  end.

Definition number_eq_string (n : Z) (s : string) : bool :=
  match StringToNumber s with
  | Some m => n =? m
  | None => false
  end.

(** [x == y] for a [y] that is a string: a number is compared with
    [ToNumber(y)], a boolean is first turned into [0] or [1], a string is
    compared as a string, and [null] and [undefined] equal no string. *)
Definition loose_eq (x : value number composite) (y : string) : bool :=
  match x with
  | VUndefined | VNull => false
  | VBool b => number_eq_string (if b then 1 else 0) y
  | VNum n => number_eq_string n y
  | VStr s => String.eqb s y
  | VComposite c => match c with end
  | VLossy Infinity => String.eqb y "Infinity" || String.eqb y "+Infinity"
  | VLossy NegInfinity => String.eqb y "-Infinity"
  | VLossy NegZero => number_eq_string 0 y
  end.

Definition random_source (n : nat) : number := 0.

Definition ann : User number composite :=
  mkUser (VNum 1) (VStr "Ann") (VStr "admin").
Definition bo : User number composite :=
  mkUser (VNum 2) (VStr "Bo") (VStr "user").
Definition cy : User number composite :=
  mkUser (VNum 2) (VStr "Cy") (VStr "user").

Definition world_of (us : list (User number composite)) : World number composite :=
  mkWorld us ∅ 0 [].

Definition request (userId : string) (n r : value number composite) :
    Request number composite :=
  mkRequest userId n r.

Definition w_empty : World number composite := world_of [].
Definition w_ann : World number composite := world_of [ann].
Definition w_three : World number composite := world_of [ann; bo; cy].

(** [/2] with body [{ name: "Zed", role: "guest" }], [/1] and [/7]
    likewise, and a body [{ name: "Bo", role: "user" }] for POST [/]. *)
Definition req_1 : Request number composite :=
  request "1" (VStr "Zed") (VStr "guest").
Definition req_2 : Request number composite :=
  request "2" (VStr "Zed") (VStr "guest").
Definition req_post_bo : Request number composite :=
  request "" (VStr "Bo") (VStr "user").
Definition req_7 : Request number composite :=
  request "7" (VStr "Zed") (VStr "guest").

(** [/0], the id [random_source] hands to a new record; Ann and Bo; and
    a world whose heap already holds Ann behind reference [1]. *)
Definition req_0 : Request number composite :=
  request "0" (VStr "Zed") (VStr "guest").
Definition w_two : World number composite := world_of [ann; bo].

(** Bodies [{ name: 1e999, role: -0 }], for POST [/] and for PUT [/1]. *)
Definition req_post_inf : Request number composite :=
  request "" (VLossy Infinity) (VLossy NegZero).
Definition req_1_inf : Request number composite :=
  request "1" (VLossy Infinity) (VLossy NegZero).
Definition w_heap_ann : World number composite :=
  mkWorld [ann] {[1%positive := ann]} 0 [].

End Fixture.

(** * Verification *)

Section Proofs.

Context {number composite : Type} {L : Lossy number composite}.
Variable loose_eq : value number composite → string → bool.
Variable random_source : nat → number.

Implicit Types (w : World number composite) (u : User number composite).
Implicit Types (us pre post : list (User number composite)).
Implicit Types (arr : list loc) (h : gmap loc (User number composite)).
Implicit Types (req : Request number composite).

(** ** Arrays *)

Lemma Array_splice_not_found {A} (init : list A) (x : A) :
  Array_splice (-1) 1 (init ++ [x]) = init.
Proof.
  unfold Array_splice. rewrite length_app, Nat.add_1_r. cbn [length].
  replace (-1 <? 0) with true by reflexivity.
  rewrite Z.max_l, Z.max_l by lia. rewrite Z.min_l by lia.
  replace (Z.to_nat (Z.of_nat (S (length init)) + -1)) with (length init) by lia.
  replace (Z.to_nat (Z.of_nat (S (length init)) + -1 + 1))
    with (S (length init)) by lia.
  rewrite take_app_length.
  replace (S (length init)) with (length (init ++ [x]))
    by (rewrite length_app; simpl; lia).
  rewrite drop_all. apply app_nil_r.
Qed.

Lemma Array_splice_at {A} (pre post : list A) (x : A) :
  Array_splice (Z.of_nat (length pre)) 1 (pre ++ x :: post) = pre ++ post.
Proof.
  unfold Array_splice. rewrite length_app. cbn [length].
  replace (Z.of_nat (length pre) <? 0) with false by (symmetry; apply Z.ltb_ge; lia).
  rewrite Z.min_l, Z.max_l by lia. rewrite Z.min_l by lia.
  rewrite Nat2Z.id.
  replace (Z.to_nat (Z.of_nat (length pre) + 1)) with (S (length pre)) by lia.
  rewrite take_app_length. f_equal.
  replace (S (length pre)) with (length pre + 1)%nat by lia.
  rewrite <- drop_drop, drop_app_length. reflexivity.
Qed.

Lemma Array_splice_empty {A} (start : Z) :
  Array_splice start 1 (@nil A) = [].
Proof.
  unfold Array_splice. rewrite take_nil, drop_nil. reflexivity.
Qed.

Lemma nonempty_snoc {A} (l : list A) :
  l ≠ [] → ∃ init x, l = init ++ [x].
Proof.
  induction l as [|a l IH]; [congruence|]. intros _.
  destruct l as [|b l].
  - exists [], a. reflexivity.
  - destruct IH as (init & x & E); [congruence|].
    exists (a :: init), x. rewrite E. reflexivity.
Qed.

(** A collection either has no record the request's id loosely equals,
    or splits at the first such record. *)
Lemma first_match_split req us :
  Forall (λ u, matches loose_eq req u = false) us
  ∨ ∃ pre u post, us = pre ++ u :: post
      ∧ Forall (λ v, matches loose_eq req v = false) pre
      ∧ matches loose_eq req u = true.
Proof.
  induction us as [|a us IH].
  - left. constructor.
  - destruct (matches loose_eq req a) eqn:Ea.
    + right. exists [], a, us. repeat split; [constructor | assumption].
    + destruct IH as [IH | (pre & u & post & -> & Hpre & Hu)].
      * left. constructor; assumption.
      * right. exists (a :: pre), u, post.
        repeat split; [constructor; assumption | assumption].
Qed.

Lemma first_match_exists req us :
  Exists (λ u, matches loose_eq req u = true) us →
  ∃ pre u post, us = pre ++ u :: post
    ∧ Forall (λ v, matches loose_eq req v = false) pre
    ∧ matches loose_eq req u = true.
Proof.
  intros Hex. destruct (first_match_split req us) as [Hnone | H]; [|exact H].
  exfalso. apply Exists_exists in Hex as (u & Hin & Hu).
  rewrite Forall_forall in Hnone. specialize (Hnone u Hin). congruence.
Qed.


(** ** Heap and monad steps *)

Lemma set_heap_same w : set_heap (heap w) w = w.
Proof. destruct w; reflexivity. Qed.

(** [JSON.parse] returns references to new, pairwise distinct objects
    that hold the decoded records; nothing else of the world changes. *)
Lemma JSON_parse_run us w :
  ∃ arr h, JSON_parse us w = (Return arr, set_heap h w)
    ∧ points_to h arr us ∧ NoDup arr.
Proof.
  cut (∃ arr h, JSON_parse us w = (Return arr, set_heap h w)
         ∧ heap w ⊆ h ∧ points_to h arr us ∧ NoDup arr
         ∧ Forall (λ l, heap w !! l = None) arr).
  { intros (arr & h & E & _ & P & N & _). eauto. }
  revert w. induction us as [|u us IH]; intros w.
  - exists [], (heap w). rewrite set_heap_same.
    repeat split; [reflexivity | constructor | constructor | constructor].
  - cbn [JSON_parse]. unfold bind at 1. unfold new_object at 1.
    set (l := fresh (dom (heap w))).
    assert (Hl : heap w !! l = None)
      by (apply not_elem_of_dom, is_fresh).
    destruct (IH (set_heap (<[l:=u]> (heap w)) w))
      as (arr & h & E & Hsub & Hpts & Hnd & Hnew).
    cbn [heap set_heap] in Hsub, Hnew.
    unfold bind. rewrite E. exists (l :: arr), h.
    assert (Hnotin : l ∉ arr).
    { intros Hin. rewrite Forall_forall in Hnew.
      specialize (Hnew l Hin). rewrite lookup_insert_eq in Hnew. discriminate. }
    repeat split.
    + transitivity (<[l:=u]> (heap w)); [|exact Hsub].
      apply insert_subseteq, Hl.
    + constructor; [|exact Hpts].
      eapply lookup_weaken; [apply lookup_insert_eq | exact Hsub].
    + constructor; assumption.
    + constructor; [exact Hl|].
      eapply Forall_impl; [exact Hnew|]. cbn beta. intros l' Hl'.
      apply lookup_insert_None in Hl'. tauto.
Qed.

Lemma snapshot_run w arr us :
  points_to (heap w) arr us → snapshot arr w = (Return us, w).
Proof.
  intros Hpts. unfold snapshot.
  replace (mapM (λ l, heap w !! l) arr) with (Some us); [reflexivity|].
  symmetry. apply mapM_Some. exact Hpts.
Qed.

Lemma id_matches_run req w l u :
  heap w !! l = Some u →
  id_matches loose_eq req l w = (Return (matches loose_eq req u), w).
Proof.
  intros Hl. unfold id_matches, bind, get_prop. rewrite Hl. reflexivity.
Qed.

Lemma Array_find_none req w arr us :
  points_to (heap w) arr us →
  Forall (λ u, matches loose_eq req u = false) us →
  Array_find (id_matches loose_eq req) arr w = (Return None, w).
Proof.
  induction 1 as [|l u arr us Hl _ IH]; intros Hno; [reflexivity|].
  inversion Hno as [|? ? Hu Hrest]; subst.
  cbn [Array_find]. unfold bind.
  rewrite (id_matches_run req w l u Hl), Hu. auto.
Qed.

Lemma Array_find_first req w apre pre l u apost :
  points_to (heap w) apre pre →
  Forall (λ v, matches loose_eq req v = false) pre →
  heap w !! l = Some u →
  matches loose_eq req u = true →
  Array_find (id_matches loose_eq req) (apre ++ l :: apost) w
    = (Return (Some l), w).
Proof.
  intros Hpts. revert apost.
  induction Hpts as [|l' u' apre pre Hl' _ IH]; intros apost Hno Hl Hu.
  - cbn [app Array_find]. unfold bind.
    rewrite (id_matches_run req w l u Hl), Hu. reflexivity.
  - inversion Hno as [|? ? Hu' Hrest]; subst.
    cbn [app Array_find]. unfold bind.
    rewrite (id_matches_run req w l' u' Hl'), Hu'. auto.
Qed.

Lemma findIndex_from_none req w k arr us :
  points_to (heap w) arr us →
  Forall (λ u, matches loose_eq req u = false) us →
  findIndex_from k (id_matches loose_eq req) arr w = (Return (-1), w).
Proof.
  intros Hpts. revert k.
  induction Hpts as [|l u arr us Hl _ IH]; intros k Hno; [reflexivity|].
  inversion Hno as [|? ? Hu Hrest]; subst.
  cbn [findIndex_from]. unfold bind.
  rewrite (id_matches_run req w l u Hl), Hu. auto.
Qed.

Lemma findIndex_from_first req w k apre pre l u apost :
  points_to (heap w) apre pre →
  Forall (λ v, matches loose_eq req v = false) pre →
  heap w !! l = Some u →
  matches loose_eq req u = true →
  findIndex_from k (id_matches loose_eq req) (apre ++ l :: apost) w
    = (Return (k + Z.of_nat (length apre)), w).
Proof.
  intros Hpts. revert k apost.
  induction Hpts as [|l' u' apre pre Hl' _ IH]; intros k apost Hno Hl Hu.
  - cbn [app findIndex_from length]. unfold bind.
    rewrite (id_matches_run req w l u Hl), Hu. unfold ret.
    do 2 f_equal. lia.
  - inversion Hno as [|? ? Hu' Hrest]; subst.
    cbn [app findIndex_from length]. unfold bind.
    rewrite (id_matches_run req w l' u' Hl'), Hu'.
    rewrite IH by assumption. do 2 f_equal. lia.
Qed.

Lemma Array_findIndex_none req w arr us :
  points_to (heap w) arr us →
  Forall (λ u, matches loose_eq req u = false) us →
  Array_findIndex (id_matches loose_eq req) arr w = (Return (-1), w).
Proof. apply findIndex_from_none. Qed.

(** Writing through one reference leaves what the other references of a
    duplicate-free array point to. *)
Lemma points_to_insert_other h arr us l u :
  l ∉ arr → points_to h arr us → points_to (<[l:=u]> h) arr us.
Proof.
  intros Hnotin Hpts. induction Hpts as [|l' u' arr us Hl' _ IH].
  - constructor.
  - apply not_elem_of_cons in Hnotin as [Hne Hnotin].
    constructor; [|exact (IH Hnotin)].
    rewrite lookup_insert_ne by congruence. exact Hl'.
Qed.

Lemma points_to_split h arr pre u post :
  points_to h arr (pre ++ u :: post) →
  ∃ apre l apost, arr = apre ++ l :: apost
    ∧ points_to h apre pre ∧ h !! l = Some u ∧ points_to h apost post.
Proof.
  intros Hpts. apply Forall2_app_inv_r in Hpts as (apre & rest & Hpre & Hrest & ->).
  apply Forall2_cons_inv_r in Hrest as (l & apost & Hl & Hpost & ->).
  exists apre, l, apost. auto.
Qed.


Lemma points_to_length h arr us : points_to h arr us → length arr = length us.
Proof. apply Forall2_length. Qed.

Lemma points_to_splice h arr us start count :
  points_to h arr us →
  points_to h (Array_splice start count arr) (Array_splice start count us).
Proof.
  intros Hpts. unfold Array_splice.
  rewrite (points_to_length h arr us Hpts).
  apply Forall2_app; [apply Forall2_take | apply Forall2_drop]; exact Hpts.
Qed.

Lemma points_to_fresh h arr us : points_to h arr us → fresh (dom h) ∉ arr.
Proof.
  induction 1 as [|l u arr us Hl _ IH].
  - apply not_elem_of_nil.
  - apply not_elem_of_cons. split; [|exact IH].
    intros Heq. apply (is_fresh (dom h)). rewrite Heq.
    apply elem_of_dom. eauto.
Qed.

Lemma Array_findIndex_first req w arr pre u post :
  points_to (heap w) arr (pre ++ u :: post) →
  Forall (λ v, matches loose_eq req v = false) pre →
  matches loose_eq req u = true →
  Array_findIndex (id_matches loose_eq req) arr w
    = (Return (Z.of_nat (length pre)), w).
Proof.
  intros Hpts Hpre Hu.
  destruct (points_to_split _ _ _ _ _ Hpts)
    as (apre & l & apost & -> & Hapre & Hl & _).
  unfold Array_findIndex.
  rewrite (findIndex_from_first req w 0 apre pre l u apost) by assumption.
  rewrite (points_to_length _ _ _ Hapre). reflexivity.
Qed.

(** ** What is read back from the file *)

Lemma to_json_value_idem (v : value number composite) :
  to_json_value (to_json_value v) = to_json_value v.
Proof.
  destruct v as [| | | | | |x]; try reflexivity.
  cbn [to_json_value]. destruct (written_as x); reflexivity.
Qed.

(** Every value but the lossy ones is written, and read back, as it is. *)
Lemma to_json_value_kept (v : value number composite) :
  (∀ x, v ≠ VLossy x) → to_json_value v = v.
Proof.
  intros Hv. destruct v as [| | | | | |x]; try reflexivity.
  destruct (Hv x). reflexivity.
Qed.

Lemma to_json_idem u : to_json (to_json u) = to_json u.
Proof.
  unfold to_json. cbn [id name role].
  rewrite !to_json_value_idem. reflexivity.
Qed.

(** Reading the file twice gives nothing new: what [JSON.parse] reads
    back is written as it is. *)
Lemma data_json_fixed w : map to_json (data_json w) = data_json w.
Proof.
  unfold data_json. rewrite map_map. apply map_ext.
  intros u. apply to_json_idem.
Qed.

Lemma fixed_app us1 us2 :
  map to_json (us1 ++ us2) = us1 ++ us2 →
  map to_json us1 = us1 ∧ map to_json us2 = us2.
Proof.
  rewrite map_app. intros H.
  apply app_inj_1 in H; [exact H | apply length_map].
Qed.

Lemma fixed_split w pre u post :
  data_json w = pre ++ u :: post →
  map to_json pre = pre ∧ to_json u = u ∧ map to_json post = post.
Proof.
  intros Hsplit. pose proof (data_json_fixed w) as Hfix.
  rewrite Hsplit in Hfix. apply fixed_app in Hfix as [Hpre Hrest].
  cbn [map] in Hrest. injection Hrest as Hu Hpost. auto.
Qed.

Lemma fixed_splice us start count :
  map to_json us = us →
  map to_json (Array_splice start count us) = Array_splice start count us.
Proof.
  intros H. unfold Array_splice.
  rewrite map_app, <- firstn_map, <- skipn_map, H. reflexivity.
Qed.

Lemma fixed_id u : to_json u = u → to_json_value (id u) = id u.
Proof. intros H. apply (f_equal id) in H. exact H. Qed.

Lemma data_json_mkWorld us h d t :
  map to_json us = us → data_json (mkWorld us h d t) = us.
Proof. intros H. exact H. Qed.

Lemma JSON_stringify_run w arr us :
  points_to (heap w) arr us →
  JSON_stringify arr w = (Return (map to_json us), w).
Proof.
  intros Hpts. unfold JSON_stringify, bind.
  rewrite (snapshot_run w arr us Hpts). reflexivity.
Qed.

(** ** The routes, run *)

(** Closes a goal equating two worlds built from the same pieces. *)
Ltac world_eq :=
  unfold fs_writeFileSync, res_end, emit, emit_event,
    set_data_json, set_heap, set_draws;
  cbn [file heap draws trace];
  rewrite <- ?app_assoc; reflexivity.

Lemma app_get_all_run req w :
  ∃ h, app_get_all req w
    = (Return tt,
       mkWorld (file w) h (draws w)
         (trace w ++ [EvRead; EvJson (BodyArray (data_json w))])).
Proof.
  destruct (JSON_parse_run (data_json w) (emit_event EvRead w))
    as (arr & h & E & Hpts & _).
  exists h. unfold app_get_all, bind, fs_readFileSync. rewrite E.
  unfold res_json, bind.
  rewrite (JSON_stringify_run _ arr (data_json w)) by exact Hpts.
  rewrite data_json_fixed. world_eq.
Qed.

Lemma app_post_run req w :
  let newUser :=
    to_json
      (mkUser (VNum (random_source (draws w)))
         (body_name req) (body_role req)) in
  ∃ h, app_post random_source req w
    = (Return tt,
       mkWorld (data_json w ++ [newUser]) h (S (draws w))
         (trace w ++ [EvRead; EvWrite (data_json w ++ [newUser]); EvEnd])).
Proof.
  intros newUser.
  destruct (JSON_parse_run (data_json w) (emit_event EvRead w))
    as (arr & h & E & Hpts & _).
  set (u := mkUser (VNum (random_source (draws w)))
              (body_name req) (body_role req)).
  exists (<[fresh (dom h) := u]> h).
  unfold app_post, bind, fs_readFileSync. rewrite E.
  unfold Math_random, new_object, Array_push.
  cbn [file heap draws trace set_heap set_draws emit_event].
  fold u.
  rewrite (JSON_stringify_run _ _ (data_json w ++ [u])).
  - rewrite map_app, data_json_fixed. cbn [map]. fold newUser. world_eq.
  - cbn [heap set_heap]. apply Forall2_app.
    + apply points_to_insert_other; [|exact Hpts].
      eapply points_to_fresh, Hpts.
    + constructor; [apply lookup_insert_eq | constructor].
Qed.

Lemma app_post_fixed req w :
  let us' :=
    data_json w
    ++ [to_json
          (mkUser (VNum (random_source (draws w)))
             (body_name req) (body_role req))] in
  map to_json us' = us'.
Proof.
  cbn zeta. rewrite map_app, data_json_fixed. cbn [map].
  rewrite to_json_idem. reflexivity.
Qed.

Lemma app_get_userId_none req w :
  Forall (λ u, matches loose_eq req u = false) (data_json w) →
  ∃ h, app_get_userId loose_eq req w
    = (Return tt,
       mkWorld (file w) h (draws w)
         (trace w ++ [EvRead; EvJson BodyNone])).
Proof.
  intros Hno.
  destruct (JSON_parse_run (data_json w) (emit_event EvRead w))
    as (arr & h & E & Hpts & _).
  exists h. unfold app_get_userId, bind, fs_readFileSync. rewrite E.
  rewrite (Array_find_none req _ arr (data_json w)) by assumption.
  unfold ref_of, res_json. world_eq.
Qed.

Lemma app_get_userId_first req w pre u post :
  data_json w = pre ++ u :: post →
  Forall (λ v, matches loose_eq req v = false) pre →
  matches loose_eq req u = true →
  ∃ h, app_get_userId loose_eq req w
    = (Return tt,
       mkWorld (file w) h (draws w)
         (trace w ++ [EvRead; EvJson (BodyObject u)])).
Proof.
  intros Hsplit Hpre Hu.
  destruct (fixed_split w pre u post Hsplit) as (_ & Hfix & _).
  destruct (JSON_parse_run (data_json w) (emit_event EvRead w))
    as (arr & h & E & Hpts & _).
  rewrite Hsplit in Hpts.
  destruct (points_to_split _ _ _ _ _ Hpts)
    as (apre & l & apost & -> & Hapre & Hl & _).
  exists h. unfold app_get_userId, bind, fs_readFileSync. rewrite E.
  rewrite (Array_find_first req _ apre pre l u apost) by assumption.
  unfold ref_of, res_json. cbn [heap set_heap]. rewrite Hl, Hfix. world_eq.
Qed.

(** What [find] hands to [res.json] for a request on a collection. *)
Lemma app_get_userId_run req w :
  ∃ h b,
    ((b = BodyNone
      ∧ Forall (λ u, matches loose_eq req u = false) (data_json w))
     ∨ ∃ pre u post,
         data_json w = pre ++ u :: post
         ∧ Forall (λ v, matches loose_eq req v = false) pre
         ∧ matches loose_eq req u = true
         ∧ b = BodyObject u)
    ∧ app_get_userId loose_eq req w
      = (Return tt,
         mkWorld (file w) h (draws w) (trace w ++ [EvRead; EvJson b])).
Proof.
  destruct (first_match_split req (data_json w))
    as [Hno | (pre & u & post & Hsplit & Hpre & Hu)].
  - destruct (app_get_userId_none req w Hno) as (h & E).
    exists h, BodyNone. split; [left; auto | exact E].
  - destruct (app_get_userId_first req w pre u post Hsplit Hpre Hu)
      as (h & E).
    exists h, (BodyObject u). split; [|exact E].
    right. exists pre, u, post. auto.
Qed.

Lemma app_put_userId_none req w :
  Forall (λ u, matches loose_eq req u = false) (data_json w) →
  ∃ h, app_put_userId loose_eq req w
    = (Throw TypeError,
       mkWorld (file w) h (draws w) (trace w ++ [EvRead])).
Proof.
  intros Hno.
  destruct (JSON_parse_run (data_json w) (emit_event EvRead w))
    as (arr & h & E & Hpts & _).
  exists h. unfold app_put_userId, bind, fs_readFileSync. rewrite E.
  rewrite (Array_find_none req _ arr (data_json w)) by assumption.
  unfold set_prop, throw. world_eq.
Qed.

(** The array in memory after the two assignments holds the submitted
    values as they are; the file gets them as [JSON.stringify] writes
    them. *)
Lemma app_put_userId_first req w pre u post :
  data_json w = pre ++ u :: post →
  Forall (λ v, matches loose_eq req v = false) pre →
  matches loose_eq req u = true →
  let u' := mkUser (id u) (body_name req) (body_role req) in
  let us' := pre ++ to_json u' :: post in
  ∃ h, app_put_userId loose_eq req w
    = (Return tt,
       mkWorld us' h (draws w)
         (trace w ++ [EvRead; EvLog (pre ++ u' :: post); EvWrite us'; EvEnd])).
Proof.
  intros Hsplit Hpre Hu u' us'.
  destruct (fixed_split w pre u post Hsplit) as (Hfpre & _ & Hfpost).
  destruct (JSON_parse_run (data_json w) (emit_event EvRead w))
    as (arr & h & E & Hpts & Hnd).
  rewrite Hsplit in Hpts.
  destruct (points_to_split _ _ _ _ _ Hpts)
    as (apre & l & apost & -> & Hapre & Hl & Hapost).
  apply NoDup_app in Hnd as (_ & Hdisj & Hnd).
  apply NoDup_cons in Hnd as (Hlpost & _).
  assert (Hlpre : l ∉ apre).
  { intros Hin. apply (Hdisj l Hin). left. }
  set (u1 := with_name (body_name req) u).
  set (u2 := with_role (body_role req) u1).
  set (h2 := <[l:=u2]> (<[l:=u1]> h)).
  assert (Hpts2 : points_to h2 (apre ++ l :: apost) (pre ++ u' :: post)).
  { apply Forall2_app; [|constructor].
    - do 2 (apply points_to_insert_other; [exact Hlpre|]). exact Hapre.
    - apply lookup_insert_eq.
    - do 2 (apply points_to_insert_other; [exact Hlpost|]). exact Hapost. }
  exists h2. unfold app_put_userId, bind, fs_readFileSync. rewrite E.
  rewrite (Array_find_first req _ apre pre l u apost) by assumption.
  unfold set_prop. cbn [heap set_heap]. rewrite Hl.
  cbn [heap set_heap]. rewrite lookup_insert_eq.
  fold u1. fold u2. fold h2.
  unfold console_log, bind.
  rewrite (snapshot_run _ _ (pre ++ u' :: post)) by exact Hpts2.
  unfold emit at 1. cbn beta iota.
  rewrite (JSON_stringify_run _ _ (pre ++ u' :: post)) by exact Hpts2.
  rewrite map_app. cbn [map]. rewrite Hfpre, Hfpost. fold us'.
  world_eq.
Qed.

Lemma app_put_userId_fixed w pre u post v :
  data_json w = pre ++ u :: post →
  map to_json (pre ++ to_json v :: post) = pre ++ to_json v :: post.
Proof.
  intros Hsplit.
  destruct (fixed_split w pre u post Hsplit) as (Hfpre & _ & Hfpost).
  rewrite map_app. cbn [map]. rewrite Hfpre, Hfpost, to_json_idem.
  reflexivity.
Qed.

Lemma app_delete_userId_run req w :
  ∃ h k, found_at loose_eq req (data_json w) k
    ∧ let us' := Array_splice k 1 (data_json w) in
      app_delete_userId loose_eq req w
      = (Return tt,
         mkWorld us' h (draws w)
           (trace w ++ [EvRead; EvLog us'; EvWrite us'; EvEnd])).
Proof.
  destruct (JSON_parse_run (data_json w) (emit_event EvRead w))
    as (arr & h & E & Hpts & _).
  assert (Hk : ∃ k, found_at loose_eq req (data_json w) k
    ∧ Array_findIndex (id_matches loose_eq req) arr
        (set_heap h (emit_event EvRead w))
      = (Return k, set_heap h (emit_event EvRead w))).
  { destruct (first_match_split req (data_json w))
      as [Hno | (pre & u & post & Hsplit & Hpre & Hu)].
    - exists (-1). split; [left; auto|].
      apply (findIndex_from_none req _ 0 arr (data_json w)); assumption.
    - rewrite Hsplit in Hpts.
      destruct (points_to_split _ _ _ _ _ Hpts)
        as (apre & l & apost & -> & Hapre & Hl & _).
      exists (Z.of_nat (length pre)). split.
      + right. exists pre, u, post. auto.
      + unfold Array_findIndex.
        rewrite (findIndex_from_first req _ 0 apre pre l u apost)
          by assumption.
        rewrite (points_to_length _ _ _ Hapre). reflexivity. }
  destruct Hk as (k & Hfound & Ek).
  exists h, k. split; [exact Hfound|]. intros us'.
  assert (Hpts' : points_to h (Array_splice k 1 arr) us')
    by (apply points_to_splice, Hpts).
  unfold app_delete_userId, bind, fs_readFileSync. rewrite E, Ek.
  unfold console_log, bind.
  rewrite (snapshot_run _ _ us') by exact Hpts'.
  unfold emit at 1. cbn beta iota.
  rewrite (JSON_stringify_run _ _ us') by exact Hpts'.
  replace (map to_json us') with us'
    by (symmetry; apply fixed_splice, data_json_fixed).
  world_eq.
Qed.

(** What DELETE writes is read back as it is. *)
Lemma splice_data_json_fixed w k :
  map to_json (Array_splice k 1 (data_json w))
  = Array_splice k 1 (data_json w).
Proof. apply fixed_splice, data_json_fixed. Qed.

Lemma none_then_not_found req us k :
  Forall (λ u, matches loose_eq req u = false) us →
  found_at loose_eq req us k → k = -1.
Proof.
  intros Hno [[-> _] | (pre & u & post & -> & _ & Hu & _)]; [reflexivity|].
  apply Forall_app in Hno as [_ Hno].
  inversion Hno as [|? ? Hu' _]; subst. congruence.
Qed.

Lemma exists_then_found req us k :
  Exists (λ u, matches loose_eq req u = true) us →
  found_at loose_eq req us k →
  ∃ pre u post, us = pre ++ u :: post
    ∧ Forall (λ v, matches loose_eq req v = false) pre
    ∧ matches loose_eq req u = true
    ∧ k = Z.of_nat (length pre).
Proof.
  intros Hex [[_ Hno] | H]; [|exact H].
  exfalso. apply Exists_exists in Hex as (u & Hin & Hu).
  rewrite Forall_forall in Hno. specialize (Hno u Hin). congruence.
Qed.

(** * The claims *)

(** C1: on a non-empty collection in which no record's id loosely equals
    the requested identifier, DELETE removes the last record:
    [findIndex] answers [-1], [splice(-1, 1)] drops one element from the
    end, and the shortened collection is logged, written to the file and
    the response is ended. *)
Theorem delete_missing_removes_last req w :
  data_json w ≠ [] →
  Forall (λ u, matches loose_eq req u = false) (data_json w) →
  ∃ init lst w',
    data_json w = init ++ [lst]
    ∧ (∀ w0 arr, points_to (heap w0) arr (data_json w) →
         Array_findIndex (id_matches loose_eq req) arr w0 = (Return (-1), w0))
    ∧ Array_splice (-1) 1 (data_json w) = init
    ∧ app_delete_userId loose_eq req w = (Return tt, w')
    ∧ data_json w' = init
    ∧ added w w' [EvRead; EvLog init; EvWrite init; EvEnd].
Proof.
  intros Hne Hno.
  destruct (nonempty_snoc _ Hne) as (init & lst & Hsplit).
  destruct (app_delete_userId_run req w) as (h & k & Hfound & E).
  pose proof (none_then_not_found _ _ _ Hno Hfound) as ->.
  pose proof (splice_data_json_fixed w (-1)) as Hfix.
  cbn zeta in E. rewrite Hsplit, Array_splice_not_found in E, Hfix.
  exists init, lst, (mkWorld init h (draws w)
    (trace w ++ [EvRead; EvLog init; EvWrite init; EvEnd])).
  split; [assumption|]. split.
  { intros w0 arr Hpts. eapply Array_findIndex_none; eassumption. }
  split; [rewrite Hsplit; apply Array_splice_not_found|].
  split; [exact E|]. split; [exact Hfix | reflexivity].
Qed.

(** C4: when no record's id loosely equals the requested identifier,
    PUT throws a TypeError (the assignment to a field of the
    [undefined] that [find] answered) before the persist step: the only
    event is the read, and the file holds what it held. *)
Theorem put_missing_throws_before_persist req w :
  Forall (λ u, matches loose_eq req u = false) (data_json w) →
  (∀ w0 arr, points_to (heap w0) arr (data_json w) →
     Array_find (id_matches loose_eq req) arr w0 = (Return None, w0))
  ∧ (∀ w0, set_prop with_name None (body_name req) w0 = (Throw TypeError, w0))
  ∧ ∃ w',
      app_put_userId loose_eq req w = (Throw TypeError, w')
      ∧ added w w' [EvRead]
      ∧ data_json w' = data_json w.
Proof.
  intros Hno. split; [|split].
  - intros w0 arr Hpts. eapply Array_find_none; eassumption.
  - reflexivity.
  - destruct (app_put_userId_none req w Hno) as (h & E).
    eexists. split; [exact E|]. split; reflexivity.
Qed.

(** C5, as amended: POST appends one record at the end of the
    collection and writes the result back; the collection is one
    longer.  The new record has, as id, the number [Math.random()]
    returned, and as name and role the submitted values as
    [JSON.stringify] writes them: as they came for every value JSON
    text holds ([undefined] included), and [null], [0] or what else is
    written for one it does not hold. *)
Theorem post_appends_record req w :
  ∃ r w',
    (Math_random random_source w).1 = Return r
    ∧ app_post random_source req w = (Return tt, w')
    ∧ data_json w'
      = data_json w
        ++ [mkUser (VNum r) (to_json_value (body_name req))
              (to_json_value (body_role req))]
    ∧ length (data_json w') = S (length (data_json w))
    ∧ added w w' [EvRead; EvWrite (data_json w'); EvEnd].
Proof.
  destruct (app_post_run req w) as (h & E). cbn zeta in E.
  eexists _, _. split; [reflexivity|]. split; [exact E|].
  rewrite (data_json_mkWorld _ _ _ _ (app_post_fixed req w)).
  split; [reflexivity|]. split; [|reflexivity].
  rewrite length_app. cbn [length]. lia.
Qed.

(** C6: GET by identifier answers the first record, in collection
    order, whose id loosely equals the requested identifier, and
    answers [undefined] (an empty body) when there is none. *)
Theorem get_returns_first_match req w :
  ∃ w' b,
    app_get_userId loose_eq req w = (Return tt, w')
    ∧ added w w' [EvRead; EvJson b]
    ∧ ((b = BodyNone
        ∧ Forall (λ u, matches loose_eq req u = false) (data_json w))
       ∨ ∃ pre u post,
           data_json w = pre ++ u :: post
           ∧ Forall (λ v, matches loose_eq req v = false) pre
           ∧ matches loose_eq req u = true
           ∧ b = BodyObject u).
Proof.
  destruct (app_get_userId_run req w) as (h & b & Hb & E).
  eexists _, b. split; [exact E|]. split; [reflexivity | exact Hb].
Qed.


(** C7, as amended: when the collection holds a record whose id loosely
    equals the requested identifier, PUT overwrites the name and role of
    the first such record and nothing else: its id and every other
    record stay as they were, in place.  The array in memory, which is
    logged, holds the submitted values as they came; the file gets them
    as [JSON.stringify] writes them, and a GET for the same identifier
    afterwards answers the record with those and the old id. *)
Theorem put_overwrites_name_and_role req w :
  Exists (λ u, matches loose_eq req u = true) (data_json w) →
  ∃ pre u post w',
    data_json w = pre ++ u :: post
    ∧ Forall (λ v, matches loose_eq req v = false) pre
    ∧ matches loose_eq req u = true
    ∧ app_put_userId loose_eq req w = (Return tt, w')
    ∧ let u' :=
        mkUser (id u) (to_json_value (body_name req))
          (to_json_value (body_role req)) in
      data_json w' = pre ++ u' :: post
      ∧ added w w'
          [EvRead;
           EvLog (pre ++ mkUser (id u) (body_name req) (body_role req) :: post);
           EvWrite (data_json w'); EvEnd]
      ∧ ∀ req', params_userId req' = params_userId req →
          ∃ w'', app_get_userId loose_eq req' w' = (Return tt, w'')
            ∧ added w' w'' [EvRead; EvJson (BodyObject u')]
            ∧ data_json w'' = data_json w'.
Proof.
  intros Hex.
  destruct (first_match_exists req _ Hex)
    as (pre & u & post & Hsplit & Hpre & Hu).
  destruct (fixed_split w pre u post Hsplit) as (_ & Hfu & _).
  destruct (app_put_userId_first req w pre u post Hsplit Hpre Hu) as (h & E).
  cbn zeta in E.
  pose proof (app_put_userId_fixed w pre u post
                (mkUser (id u) (body_name req) (body_role req)) Hsplit) as Hfix.
  unfold to_json at 1 2 in E. unfold to_json at 2 3 in Hfix.
  cbn [id name role] in E, Hfix. rewrite (fixed_id u Hfu) in E, Hfix.
  set (u' := mkUser (id u) (to_json_value (body_name req))
               (to_json_value (body_role req))) in *.
  set (w' := mkWorld (pre ++ u' :: post) h (draws w) _) in E.
  assert (Hd : data_json w' = pre ++ u' :: post) by exact Hfix.
  exists pre, u, post, w'. do 3 (split; [assumption|]).
  split; [exact E|]. cbn zeta. fold u'.
  split; [exact Hd|]. split; [rewrite Hd; reflexivity|].
  intros req' Hsame.
  assert (Hpre' : Forall (λ v, matches loose_eq req' v = false) pre).
  { eapply Forall_impl; [exact Hpre|]. cbn beta. unfold matches.
    intros v Hv. rewrite Hsame. exact Hv. }
  assert (Hu' : matches loose_eq req' u' = true).
  { unfold matches. cbn [id u']. rewrite Hsame. exact Hu. }
  destruct (app_get_userId_first req' w' pre u' post Hd Hpre' Hu')
    as (h' & E').
  eexists. split; [exact E'|]. split; reflexivity.
Qed.

(** C8: neither read route touches storage.  GET [/] and GET
    [/:userId] issue no write, so the file holds after the request what
    it held before; and GET [/] answers the whole collection as it is. *)
Theorem reads_never_mutate req w :
  (∃ w', app_get_all req w = (Return tt, w')
     ∧ data_json w' = data_json w
     ∧ added w w' [EvRead; EvJson (BodyArray (data_json w))]
     ∧ no_write [EvRead; EvJson (BodyArray (data_json w))])
  ∧ (∃ w' evs, app_get_userId loose_eq req w = (Return tt, w')
       ∧ data_json w' = data_json w
       ∧ added w w' evs
       ∧ no_write evs).
Proof.
  assert (Hnw : ∀ b : body number composite, no_write [EvRead; EvJson b]).
  { intros b us Hin.
    apply elem_of_cons in Hin as [Hin | Hin]; [discriminate|].
    apply list_elem_of_singleton in Hin. discriminate. }
  split.
  - destruct (app_get_all_run req w) as (h & E).
    eexists. split; [exact E|]. repeat split. apply Hnw.
  - destruct (app_get_userId_run req w) as (h & b & _ & E).
    eexists _, [EvRead; EvJson b]. split; [exact E|].
    repeat split. apply Hnw.
Qed.


(** C9: when the collection holds a record whose id loosely equals the
    requested identifier, DELETE removes exactly one element, the first
    such record, at the position [findIndex] found it; the records
    before and after it keep their order. *)
Theorem delete_removes_first_match req w :
  Exists (λ u, matches loose_eq req u = true) (data_json w) →
  ∃ pre u post w',
    data_json w = pre ++ u :: post
    ∧ Forall (λ v, matches loose_eq req v = false) pre
    ∧ matches loose_eq req u = true
    ∧ (∀ w0 arr, points_to (heap w0) arr (data_json w) →
         Array_findIndex (id_matches loose_eq req) arr w0
           = (Return (Z.of_nat (length pre)), w0))
    ∧ app_delete_userId loose_eq req w = (Return tt, w')
    ∧ data_json w' = pre ++ post
    ∧ S (length (data_json w')) = length (data_json w)
    ∧ added w w' [EvRead; EvLog (pre ++ post); EvWrite (pre ++ post); EvEnd].
Proof.
  intros Hex.
  destruct (app_delete_userId_run req w) as (h & k & Hfound & E).
  destruct (exists_then_found _ _ _ Hex Hfound)
    as (pre & u & post & Hsplit & Hpre & Hu & ->).
  pose proof (splice_data_json_fixed w (Z.of_nat (length pre))) as Hfix.
  cbn zeta in E. rewrite Hsplit, Array_splice_at in E, Hfix.
  eexists pre, u, post, _. do 3 (split; [assumption|]).
  split.
  { intros w0 arr Hpts. rewrite Hsplit in Hpts.
    eapply Array_findIndex_first; eassumption. }
  split; [exact E|].
  rewrite (data_json_mkWorld _ _ _ _ Hfix).
  split; [reflexivity|]. split; [|reflexivity].
  rewrite Hsplit, !length_app. cbn [length]. lia.
Qed.

(** C10: on the empty collection DELETE leaves the collection empty,
    whatever the identifier: [findIndex] answers [-1], [splice(-1, 1)]
    on an empty array removes nothing, and the empty array is written
    back. *)
Theorem delete_on_empty_stays_empty req w :
  data_json w = [] →
  ∃ w',
    (∀ w0 arr, points_to (heap w0) arr (data_json w) →
       Array_findIndex (id_matches loose_eq req) arr w0 = (Return (-1), w0))
    ∧ Array_splice (-1) 1 (data_json w) = []
    ∧ app_delete_userId loose_eq req w = (Return tt, w')
    ∧ data_json w' = []
    ∧ added w w' [EvRead; EvLog []; EvWrite []; EvEnd].
Proof.
  intros Hempty.
  assert (Hno : Forall (λ u, matches loose_eq req u = false) (data_json w))
    by (rewrite Hempty; constructor).
  destruct (app_delete_userId_run req w) as (h & k & Hfound & E).
  pose proof (none_then_not_found _ _ _ Hno Hfound) as ->.
  cbn zeta in E. rewrite Hempty, Array_splice_empty in E.
  eexists. split.
  { intros w0 arr Hpts. eapply Array_findIndex_none; eassumption. }
  split.
  { rewrite Hempty. apply Array_splice_empty. }
  split; [exact E|]. split; reflexivity.
Qed.

End Proofs.

(** * The routes on concrete collections *)

(** C2: DELETE [/2] on a collection holding only Ann, whose id is [1]:
    no record matches, yet the collection written back is empty, so its
    length went from one to zero. *)
Theorem delete_missing_shortens_collection :
  Forall (λ u, matches Fixture.loose_eq Fixture.req_2 u = false)
    (data_json Fixture.w_ann)
  ∧ ∃ w',
      app_delete_userId Fixture.loose_eq Fixture.req_2 Fixture.w_ann
        = (Return tt, w')
      ∧ data_json w' = []
      ∧ length (data_json w') ≠ length (data_json Fixture.w_ann).
Proof.
  split; [repeat constructor|].
  eexists. split; [vm_compute; reflexivity|].
  split; [reflexivity | discriminate].
Qed.

(** C3: PUT [/2] on a collection holding only Ann, whose id is [1]: no
    record matches, and the handler does not end normally, so it
    neither writes the collection back nor ends the response. *)
Lemma put_missing_is_no_silent_success :
  Forall (λ u, matches Fixture.loose_eq Fixture.req_2 u = false)
    (data_json Fixture.w_ann)
  ∧ ¬ ∃ w',
        app_put_userId Fixture.loose_eq Fixture.req_2 Fixture.w_ann
          = (Return tt, w')
        ∧ data_json w' = data_json Fixture.w_ann
        ∧ EvWrite (data_json Fixture.w_ann) ∈ trace w'
        ∧ EvEnd ∈ trace w'.
Proof.
  split; [repeat constructor|].
  intros (w' & E & _).
  assert (Hrun : (app_put_userId Fixture.loose_eq Fixture.req_2
                    Fixture.w_ann).1 = Throw TypeError)
    by (vm_compute; reflexivity).
  rewrite E in Hrun. discriminate.
Qed.

(** C5, as stated, fails: POST with body [{ name: 1e999, role: -0 }] on
    the empty collection does not store the submitted name and role as
    they came; the file holds [null] and [0]. *)
Lemma post_lossy_not_verbatim :
  ¬ ∃ w',
      app_post Fixture.random_source Fixture.req_post_inf Fixture.w_empty
        = (Return tt, w')
      ∧ data_json w'
        = data_json Fixture.w_empty
          ++ [mkUser (VNum (Fixture.random_source (draws Fixture.w_empty)))
                (body_name Fixture.req_post_inf)
                (body_role Fixture.req_post_inf)].
Proof.
  intros (w' & E & Hd).
  assert (Hrun : data_json
                   (app_post Fixture.random_source Fixture.req_post_inf
                      Fixture.w_empty).2
                 = [mkUser (VNum 0%Z) VNull (VNum 0%Z)])
    by (vm_compute; reflexivity).
  rewrite E in Hrun. cbn [snd] in Hrun. rewrite Hd in Hrun.
  discriminate Hrun.
Qed.

(** C7, as stated, fails: PUT [/1] with body [{ name: 1e999, role: -0 }]
    on the collection holding only Ann does not leave a record with
    the submitted name and role; the file holds [null] and [0]. *)
Lemma put_lossy_not_verbatim :
  Exists (λ u, matches Fixture.loose_eq Fixture.req_1_inf u = true)
    (data_json Fixture.w_ann)
  ∧ ¬ ∃ w',
        app_put_userId Fixture.loose_eq Fixture.req_1_inf Fixture.w_ann
          = (Return tt, w')
        ∧ data_json w'
          = [mkUser (id Fixture.ann) (body_name Fixture.req_1_inf)
               (body_role Fixture.req_1_inf)].
Proof.
  split; [apply Exists_cons_hd; reflexivity|].
  intros (w' & E & Hd).
  assert (Hrun : data_json
                   (app_put_userId Fixture.loose_eq Fixture.req_1_inf
                      Fixture.w_ann).2
                 = [mkUser (VNum 1%Z) VNull (VNum 0%Z)])
    by (vm_compute; reflexivity).
  rewrite E in Hrun. cbn [snd] in Hrun. rewrite Hd in Hrun.
  discriminate Hrun.
Qed.

(** DELETE [/7] on Ann, Bo, Cy: nobody has id [7], Cy goes. *)
Lemma delete_missing_removes_last_witness :
  (data_json Fixture.w_three ≠ []
   ∧ Forall (λ u, matches Fixture.loose_eq Fixture.req_7 u = false)
       (data_json Fixture.w_three))
  ∧ ∃ init lst w',
      data_json Fixture.w_three = init ++ [lst]
      ∧ (∀ w0 arr, points_to (heap w0) arr (data_json Fixture.w_three) →
           Array_findIndex (id_matches Fixture.loose_eq Fixture.req_7) arr w0
             = (Return (-1), w0))
      ∧ Array_splice (-1) 1 (data_json Fixture.w_three) = init
      ∧ app_delete_userId Fixture.loose_eq Fixture.req_7 Fixture.w_three
        = (Return tt, w')
      ∧ data_json w' = init
      ∧ added Fixture.w_three w' [EvRead; EvLog init; EvWrite init; EvEnd].
Proof.
  split.
  - split; [discriminate | repeat constructor].
  - apply (delete_missing_removes_last Fixture.loose_eq
             Fixture.req_7 Fixture.w_three);
      [discriminate | repeat constructor].
Defined.

(** PUT [/2] on the collection holding only Ann. *)
Lemma put_missing_throws_before_persist_witness :
  Forall (λ u, matches Fixture.loose_eq Fixture.req_2 u = false)
    (data_json Fixture.w_ann)
  ∧ ∃ w',
      app_put_userId Fixture.loose_eq Fixture.req_2 Fixture.w_ann
        = (Throw TypeError, w')
      ∧ added Fixture.w_ann w' [EvRead]
      ∧ data_json w' = data_json Fixture.w_ann.
Proof.
  split; [repeat constructor|].
  apply (put_missing_throws_before_persist Fixture.loose_eq
           Fixture.req_2 Fixture.w_ann).
  repeat constructor.
Defined.

(** PUT [/2] on Ann, Bo, Cy: Bo and Cy both have id [2], Bo comes first. *)
Lemma put_overwrites_name_and_role_witness :
  Exists (λ u, matches Fixture.loose_eq Fixture.req_2 u = true)
    (data_json Fixture.w_three)
  ∧ ∃ pre u post w',
      data_json Fixture.w_three = pre ++ u :: post
      ∧ Forall (λ v, matches Fixture.loose_eq Fixture.req_2 v = false) pre
      ∧ matches Fixture.loose_eq Fixture.req_2 u = true
      ∧ app_put_userId Fixture.loose_eq Fixture.req_2 Fixture.w_three
        = (Return tt, w')
      ∧ let u' :=
          mkUser (id u) (to_json_value (body_name Fixture.req_2))
            (to_json_value (body_role Fixture.req_2)) in
        data_json w' = pre ++ u' :: post
        ∧ added Fixture.w_three w'
            [EvRead;
             EvLog (pre
                    ++ mkUser (id u) (body_name Fixture.req_2)
                         (body_role Fixture.req_2) :: post);
             EvWrite (data_json w'); EvEnd]
        ∧ ∀ req', params_userId req' = params_userId Fixture.req_2 →
            ∃ w'', app_get_userId Fixture.loose_eq req' w' = (Return tt, w'')
              ∧ added w' w'' [EvRead; EvJson (BodyObject u')]
              ∧ data_json w'' = data_json w'.
Proof.
  split.
  - apply Exists_cons_tl, Exists_cons_hd. reflexivity.
  - apply (put_overwrites_name_and_role Fixture.loose_eq
             Fixture.req_2 Fixture.w_three).
    apply Exists_cons_tl, Exists_cons_hd. reflexivity.
Defined.

(** DELETE [/2] on Ann, Bo, Cy. *)
Lemma delete_removes_first_match_witness :
  Exists (λ u, matches Fixture.loose_eq Fixture.req_2 u = true)
    (data_json Fixture.w_three)
  ∧ ∃ pre u post w',
      data_json Fixture.w_three = pre ++ u :: post
      ∧ Forall (λ v, matches Fixture.loose_eq Fixture.req_2 v = false) pre
      ∧ matches Fixture.loose_eq Fixture.req_2 u = true
      ∧ (∀ w0 arr, points_to (heap w0) arr (data_json Fixture.w_three) →
           Array_findIndex (id_matches Fixture.loose_eq Fixture.req_2) arr w0
             = (Return (Z.of_nat (length pre)), w0))
      ∧ app_delete_userId Fixture.loose_eq Fixture.req_2 Fixture.w_three
        = (Return tt, w')
      ∧ data_json w' = pre ++ post
      ∧ S (length (data_json w')) = length (data_json Fixture.w_three)
      ∧ added Fixture.w_three w'
          [EvRead; EvLog (pre ++ post); EvWrite (pre ++ post); EvEnd].
Proof.
  split.
  - apply Exists_cons_tl, Exists_cons_hd. reflexivity.
  - apply (delete_removes_first_match Fixture.loose_eq
             Fixture.req_2 Fixture.w_three).
    apply Exists_cons_tl, Exists_cons_hd. reflexivity.
Defined.

(** DELETE [/7] on the empty collection. *)
Lemma delete_on_empty_stays_empty_witness :
  data_json Fixture.w_empty = []
  ∧ ∃ w',
      (∀ w0 arr, points_to (heap w0) arr (data_json Fixture.w_empty) →
         Array_findIndex (id_matches Fixture.loose_eq Fixture.req_7) arr w0
           = (Return (-1), w0))
      ∧ Array_splice (-1) 1 (data_json Fixture.w_empty) = []
      ∧ app_delete_userId Fixture.loose_eq Fixture.req_7 Fixture.w_empty
        = (Return tt, w')
      ∧ data_json w' = []
      ∧ added Fixture.w_empty w' [EvRead; EvLog []; EvWrite []; EvEnd].
Proof.
  split; [reflexivity|].
  apply (delete_on_empty_stays_empty Fixture.loose_eq
           Fixture.req_7 Fixture.w_empty).
  reflexivity.
Defined.

(** ** The scenarios of the service's description *)

Example scenario_get_ann :
  trace (app_get_userId Fixture.loose_eq Fixture.req_1 Fixture.w_ann).2
  = [EvRead; EvJson (BodyObject Fixture.ann)].
Proof. vm_compute. reflexivity. Qed.

Example scenario_delete_ann :
  data_json (app_delete_userId Fixture.loose_eq Fixture.req_1 Fixture.w_ann).2
  = [].
Proof. vm_compute. reflexivity. Qed.

Example scenario_list_after_delete :
  let w := (app_delete_userId Fixture.loose_eq Fixture.req_1 Fixture.w_ann).2 in
  trace (app_get_all Fixture.req_1 w).2
  = trace w ++ [EvRead; EvJson (BodyArray [])].
Proof. vm_compute. reflexivity. Qed.

Example scenario_post_bo :
  data_json
    (app_post Fixture.random_source Fixture.req_post_bo Fixture.w_empty).2
  = [mkUser (VNum 0) (VStr "Bo") (VStr "user")].
Proof. vm_compute. reflexivity. Qed.

Example scenario_post_lossy :
  data_json
    (app_post Fixture.random_source Fixture.req_post_inf Fixture.w_empty).2
  = [mkUser (VNum 0) VNull (VNum 0)].
Proof. vm_compute. reflexivity. Qed.

Example scenario_put_lossy :
  trace (app_put_userId Fixture.loose_eq Fixture.req_1_inf Fixture.w_ann).2
  = [EvRead;
     EvLog [mkUser (VNum 1) (VLossy Fixture.Infinity)
              (VLossy Fixture.NegZero)];
     EvWrite [mkUser (VNum 1) VNull (VNum 0)];
     EvEnd].
Proof. vm_compute. reflexivity. Qed.

Example scenario_put_first_of_two :
  data_json (app_put_userId Fixture.loose_eq Fixture.req_2 Fixture.w_three).2
  = [Fixture.ann; mkUser (VNum 2) (VStr "Zed") (VStr "guest"); Fixture.cy].
Proof. vm_compute. reflexivity. Qed.

(** * The routes together *)

Section Together.

Context {number composite : Type} {L : Lossy number composite}.
Variable loose_eq : value number composite → string → bool.
Variable random_source : nat → number.

Implicit Types (w : World number composite) (u : User number composite).
Implicit Types (us pre post : list (User number composite)).
Implicit Types (arr : list loc) (req : Request number composite).

(** A collection splits at its first match in one way only. *)
Lemma first_match_unique req pre u post pre' u' post' :
  pre ++ u :: post = pre' ++ u' :: post' →
  Forall (λ v, matches loose_eq req v = false) pre →
  matches loose_eq req u = true →
  Forall (λ v, matches loose_eq req v = false) pre' →
  matches loose_eq req u' = true →
  pre = pre' ∧ u = u' ∧ post = post'.
Proof.
  revert pre'. induction pre as [|a pre IH]; intros [|a' pre'] Heq Hpre Hu Hpre' Hu';
    cbn [app] in Heq.
  - injection Heq as -> ->. auto.
  - injection Heq as -> _. inversion Hpre'; subst. congruence.
  - injection Heq as -> _. inversion Hpre; subst. congruence.
  - injection Heq as -> Heq. inversion Hpre; inversion Hpre'; subst.
    destruct (IH pre' Heq) as (-> & -> & ->); auto.
Qed.

Lemma app_delete_userId_none req w :
  Forall (λ u, matches loose_eq req u = false) (data_json w) →
  let us' := Array_splice (-1) 1 (data_json w) in
  ∃ h, app_delete_userId loose_eq req w
    = (Return tt,
       mkWorld us' h (draws w)
         (trace w ++ [EvRead; EvLog us'; EvWrite us'; EvEnd])).
Proof.
  intros Hno us'.
  destruct (app_delete_userId_run loose_eq req w) as (h & k & Hfound & E).
  pose proof (none_then_not_found loose_eq _ _ _ Hno Hfound) as ->.
  exists h. exact E.
Qed.

Lemma app_delete_userId_first req w pre u post :
  data_json w = pre ++ u :: post →
  Forall (λ v, matches loose_eq req v = false) pre →
  matches loose_eq req u = true →
  let us' := pre ++ post in
  ∃ h, app_delete_userId loose_eq req w
    = (Return tt,
       mkWorld us' h (draws w)
         (trace w ++ [EvRead; EvLog us'; EvWrite us'; EvEnd])).
Proof.
  intros Hsplit Hpre Hu us'.
  destruct (app_delete_userId_run loose_eq req w) as (h & k & Hfound & E).
  assert (Hex : Exists (λ v, matches loose_eq req v = true) (data_json w)).
  { rewrite Hsplit. apply Exists_app. right. left. exact Hu. }
  destruct (exists_then_found loose_eq _ _ _ Hex Hfound)
    as (pre' & u' & post' & Hsplit' & Hpre' & Hu' & ->).
  rewrite Hsplit in Hsplit'.
  destruct (first_match_unique req _ _ _ _ _ _ Hsplit' Hpre Hu Hpre' Hu')
    as (<- & <- & <-).
  cbn zeta in E. rewrite Hsplit, Array_splice_at in E.
  exists h. exact E.
Qed.

Lemma matches_same_userId req req' u :
  params_userId req' = params_userId req →
  matches loose_eq req' u = matches loose_eq req u.
Proof. unfold matches. intros ->. reflexivity. Qed.

Lemma Forall_matches_same_userId req req' us :
  params_userId req' = params_userId req →
  Forall (λ v, matches loose_eq req v = false) us →
  Forall (λ v, matches loose_eq req' v = false) us.
Proof.
  intros Hsame Hno. eapply Forall_impl; [exact Hno|]. cbn beta.
  intros v Hv. rewrite (matches_same_userId req req' v Hsame). exact Hv.
Qed.

(** ** Other identifiers *)

Lemma find_none_of_Forall req us :
  Forall (λ u, matches loose_eq req u = false) us →
  List.find (matches loose_eq req) us = None.
Proof.
  induction 1 as [|u us Hu _ IH]; [reflexivity|].
  cbn [List.find]. rewrite Hu. exact IH.
Qed.

Lemma find_skip req (l1 l2 : list (User number composite)) :
  List.find (matches loose_eq req) (l1 ++ l2)
  = match List.find (matches loose_eq req) l1 with
    | Some u => Some u
    | None => List.find (matches loose_eq req) l2
    end.
Proof.
  induction l1 as [|a l1 IH]; [reflexivity|].
  cbn [app List.find]. destruct (matches loose_eq req a); [reflexivity | exact IH].
Qed.

(** GET answers what a linear search of the stored collection finds. *)
Lemma app_get_userId_find req w :
  ∃ h, app_get_userId loose_eq req w
    = (Return tt,
       mkWorld (file w) h (draws w)
         (trace w
          ++ [EvRead;
              EvJson match List.find (matches loose_eq req) (data_json w) with
                     | Some u => BodyObject u
                     | None => BodyNone
                     end])).
Proof.
  destruct (first_match_split loose_eq req (data_json w))
    as [Hno | (pre & u & post & Hsplit & Hpre & Hu)].
  - destruct (app_get_userId_none loose_eq req w Hno) as (h & E).
    exists h. rewrite (find_none_of_Forall req _ Hno). exact E.
  - destruct (app_get_userId_first loose_eq req w pre u post Hsplit Hpre Hu)
      as (h & E).
    exists h. rewrite E, Hsplit, find_skip, (find_none_of_Forall req _ Hpre).
    cbn [List.find]. rewrite Hu. reflexivity.
Qed.

(** ** Each route by what it leaves behind *)

Lemma post_spec req w :
  ∃ w',
    app_post random_source req w = (Return tt, w')
    ∧ data_json w'
      = data_json w
        ++ [mkUser (VNum (random_source (draws w)))
              (to_json_value (body_name req))
              (to_json_value (body_role req))]
    ∧ draws w' = S (draws w).
Proof.
  destruct (app_post_run random_source req w) as (h & E). cbn zeta in E.
  eexists. split; [exact E|].
  rewrite (data_json_mkWorld _ _ _ _ (app_post_fixed random_source req w)).
  split; reflexivity.
Qed.

Lemma get_none_spec req w :
  Forall (λ u, matches loose_eq req u = false) (data_json w) →
  ∃ w',
    app_get_userId loose_eq req w = (Return tt, w')
    ∧ added w w' [EvRead; EvJson BodyNone].
Proof.
  intros Hno. destruct (app_get_userId_none loose_eq req w Hno) as (h & E).
  eexists. split; [exact E | reflexivity].
Qed.

Lemma get_first_spec req w pre u post :
  data_json w = pre ++ u :: post →
  Forall (λ v, matches loose_eq req v = false) pre →
  matches loose_eq req u = true →
  ∃ w',
    app_get_userId loose_eq req w = (Return tt, w')
    ∧ added w w' [EvRead; EvJson (BodyObject u)].
Proof.
  intros Hsplit Hpre Hu.
  destruct (app_get_userId_first loose_eq req w pre u post Hsplit Hpre Hu)
    as (h & E).
  eexists. split; [exact E | reflexivity].
Qed.

Lemma get_find_spec req w :
  ∃ w',
    app_get_userId loose_eq req w = (Return tt, w')
    ∧ added w w'
        [EvRead;
         EvJson match List.find (matches loose_eq req) (data_json w) with
                | Some u => BodyObject u
                | None => BodyNone
                end].
Proof.
  destruct (app_get_userId_find req w) as (h & E).
  eexists. split; [exact E | reflexivity].
Qed.

Lemma put_none_spec req w :
  Forall (λ u, matches loose_eq req u = false) (data_json w) →
  ∃ w',
    app_put_userId loose_eq req w = (Throw TypeError, w')
    ∧ data_json w' = data_json w
    ∧ added w w' [EvRead].
Proof.
  intros Hno. destruct (app_put_userId_none loose_eq req w Hno) as (h & E).
  eexists. split; [exact E|]. split; reflexivity.
Qed.

Lemma put_first_spec req w pre u post :
  data_json w = pre ++ u :: post →
  Forall (λ v, matches loose_eq req v = false) pre →
  matches loose_eq req u = true →
  ∃ w',
    app_put_userId loose_eq req w = (Return tt, w')
    ∧ data_json w'
      = pre
        ++ mkUser (id u) (to_json_value (body_name req))
             (to_json_value (body_role req)) :: post.
Proof.
  intros Hsplit Hpre Hu.
  destruct (fixed_split w pre u post Hsplit) as (_ & Hfu & _).
  destruct (app_put_userId_first loose_eq req w pre u post Hsplit Hpre Hu)
    as (h & E). cbn zeta in E.
  pose proof (app_put_userId_fixed w pre u post
                (mkUser (id u) (body_name req) (body_role req)) Hsplit) as Hfix.
  eexists. split; [exact E|].
  rewrite (data_json_mkWorld _ _ _ _ Hfix).
  unfold to_json. cbn [id name role]. rewrite (fixed_id u Hfu). reflexivity.
Qed.

Lemma delete_none_spec req w :
  Forall (λ u, matches loose_eq req u = false) (data_json w) →
  ∃ w',
    app_delete_userId loose_eq req w = (Return tt, w')
    ∧ data_json w' = Array_splice (-1) 1 (data_json w)
    ∧ added w w'
        [EvRead; EvLog (data_json w'); EvWrite (data_json w'); EvEnd].
Proof.
  intros Hno. destruct (app_delete_userId_none req w Hno) as (h & E).
  cbn zeta in E. eexists. split; [exact E|].
  rewrite (data_json_mkWorld _ _ _ _ (splice_data_json_fixed w (-1))).
  split; reflexivity.
Qed.

Lemma delete_first_spec req w pre u post :
  data_json w = pre ++ u :: post →
  Forall (λ v, matches loose_eq req v = false) pre →
  matches loose_eq req u = true →
  ∃ w',
    app_delete_userId loose_eq req w = (Return tt, w')
    ∧ data_json w' = pre ++ post
    ∧ added w w'
        [EvRead; EvLog (data_json w'); EvWrite (data_json w'); EvEnd].
Proof.
  intros Hsplit Hpre Hu.
  destruct (app_delete_userId_first req w pre u post Hsplit Hpre Hu)
    as (h & E). cbn zeta in E.
  pose proof (splice_data_json_fixed w (Z.of_nat (length pre))) as Hfix.
  rewrite Hsplit, Array_splice_at in Hfix.
  eexists. split; [exact E|].
  rewrite (data_json_mkWorld _ _ _ _ Hfix). split; reflexivity.
Qed.

(** ** Create, then read or delete *)

(** X1: a GET [/] right after a POST answers the collection as it was
    before the POST followed by the new record: the number
    [Math.random()] returned as id, and the submitted name and role as
    [JSON.stringify] wrote them. *)
Theorem post_then_list req req' w :
  ∃ w1 w2,
    app_post random_source req w = (Return tt, w1)
    ∧ app_get_all req' w1 = (Return tt, w2)
    ∧ added w1 w2
        [EvRead;
         EvJson (BodyArray
           (data_json w
            ++ [mkUser (VNum (random_source (draws w)))
                  (to_json_value (body_name req))
                  (to_json_value (body_role req))]))].
Proof.
  destruct (post_spec req w) as (w1 & E1 & Hd1 & _).
  destruct (app_get_all_run req' w1) as (h2 & E2).
  eexists w1, _. split; [exact E1|]. split; [exact E2|].
  rewrite <- Hd1. reflexivity.
Qed.

(** X2: when no stored record's id loosely equals the identifier but
    the number [Math.random()] returns does, a GET for that identifier
    right after the POST answers the record just created, with the
    submitted name and role as [JSON.stringify] wrote them. *)
Theorem post_then_get_new req req' w :
  Forall (λ u, matches loose_eq req' u = false) (data_json w) →
  loose_eq (VNum (random_source (draws w))) (params_userId req') = true →
  ∃ w1 w2,
    app_post random_source req w = (Return tt, w1)
    ∧ app_get_userId loose_eq req' w1 = (Return tt, w2)
    ∧ added w1 w2
        [EvRead;
         EvJson (BodyObject
           (mkUser (VNum (random_source (draws w)))
              (to_json_value (body_name req))
              (to_json_value (body_role req))))].
Proof.
  intros Hno Hnew.
  destruct (post_spec req w) as (w1 & E1 & Hd1 & _).
  destruct (get_first_spec req' w1 (data_json w) _ [] Hd1 Hno Hnew)
    as (w2 & E2 & Ht2).
  exists w1, w2. auto.
Qed.

(** X3: ids are not checked for collisions, and the first match wins:
    when a stored record's id already loosely equals the identifier, a
    GET for it answers the same record after a POST as before, whatever
    id the new record got. *)
Theorem post_keeps_first_match req req' w :
  Exists (λ u, matches loose_eq req' u = true) (data_json w) →
  ∃ u w0 w1 w2,
    app_get_userId loose_eq req' w = (Return tt, w0)
    ∧ added w w0 [EvRead; EvJson (BodyObject u)]
    ∧ app_post random_source req w = (Return tt, w1)
    ∧ app_get_userId loose_eq req' w1 = (Return tt, w2)
    ∧ added w1 w2 [EvRead; EvJson (BodyObject u)].
Proof.
  intros Hex.
  destruct (first_match_exists loose_eq req' _ Hex)
    as (pre & u & post & Hsplit & Hpre & Hu).
  destruct (get_first_spec req' w pre u post Hsplit Hpre Hu)
    as (w0 & E0 & Ht0).
  destruct (post_spec req w) as (w1 & E1 & Hd1 & _).
  rewrite Hsplit, <- app_assoc in Hd1. cbn [app] in Hd1.
  destruct (get_first_spec req' w1 pre u _ Hd1 Hpre Hu) as (w2 & E2 & Ht2).
  exists u, w0, w1, w2. auto.
Qed.

(** X4: when no stored record's id loosely equals the identifier, a
    DELETE for it right after a POST leaves the collection as it was
    before the POST.  If the new record matches it is the one found;
    if it does not, it is the last record and [splice(-1, 1)] takes it. *)
Theorem post_then_delete_restores req req' w :
  Forall (λ u, matches loose_eq req' u = false) (data_json w) →
  ∃ w1 w2,
    app_post random_source req w = (Return tt, w1)
    ∧ app_delete_userId loose_eq req' w1 = (Return tt, w2)
    ∧ data_json w2 = data_json w
    ∧ added w1 w2
        [EvRead; EvLog (data_json w); EvWrite (data_json w); EvEnd].
Proof.
  intros Hno.
  destruct (post_spec req w) as (w1 & E1 & Hd1 & _).
  set (newUser := mkUser _ _ _) in Hd1.
  destruct (matches loose_eq req' newUser) eqn:Hnew.
  - destruct (delete_first_spec req' w1 (data_json w) newUser [] Hd1 Hno Hnew)
      as (w2 & E2 & Hd2 & Ht2).
    rewrite app_nil_r in Hd2. rewrite Hd2 in Ht2.
    exists w1, w2. auto.
  - assert (Hno1 : Forall (λ u, matches loose_eq req' u = false) (data_json w1)).
    { rewrite Hd1. apply Forall_app. split; [exact Hno|].
      constructor; [exact Hnew | constructor]. }
    destruct (delete_none_spec req' w1 Hno1) as (w2 & E2 & Hd2 & Ht2).
    rewrite Hd1, Array_splice_not_found in Hd2. rewrite Hd2 in Ht2.
    exists w1, w2. auto.
Qed.

(** X5: two POSTs in a row append their records in request order, with
    the numbers of two successive [Math.random()] calls as ids and the
    submitted names and roles as [JSON.stringify] writes them; nothing
    compares the two ids. *)
Theorem post_twice req1 req2 w :
  ∃ w1 w2,
    app_post random_source req1 w = (Return tt, w1)
    ∧ app_post random_source req2 w1 = (Return tt, w2)
    ∧ data_json w2
      = data_json w
        ++ [mkUser (VNum (random_source (draws w)))
              (to_json_value (body_name req1))
              (to_json_value (body_role req1));
            mkUser (VNum (random_source (S (draws w))))
              (to_json_value (body_name req2))
              (to_json_value (body_role req2))]
    ∧ draws w2 = S (S (draws w)).
Proof.
  destruct (post_spec req1 w) as (w1 & E1 & Hd1 & Hr1).
  destruct (post_spec req2 w1) as (w2 & E2 & Hd2 & Hr2).
  exists w1, w2. split; [exact E1|]. split; [exact E2|].
  rewrite Hd2, Hd1, Hr2, Hr1, <- app_assoc. split; reflexivity.
Qed.

(** ** Delete *)

(** X6: DELETE never throws and never leaves a non-empty collection at
    its length: whatever the identifier, what it writes back is the
    collection with exactly one record taken out, the others in their
    order (and the empty collection stays empty). *)
Theorem delete_always_removes_one req w :
  ∃ w',
    app_delete_userId loose_eq req w = (Return tt, w')
    ∧ sublist (data_json w') (data_json w)
    ∧ length (data_json w') = pred (length (data_json w))
    ∧ added w w'
        [EvRead; EvLog (data_json w'); EvWrite (data_json w'); EvEnd].
Proof.
  destruct (first_match_split loose_eq req (data_json w))
    as [Hno | (pre & u & post & Hsplit & Hpre & Hu)].
  - destruct (delete_none_spec req w Hno) as (w' & E & Hd & Ht).
    exists w'. split; [exact E|]. split; [|split; [|exact Ht]]; rewrite Hd.
    + destruct (data_json w) as [|a us] eqn:Hus.
      * rewrite Array_splice_empty. constructor.
      * destruct (nonempty_snoc (a :: us)) as (init & lst & Hsnoc);
          [discriminate|].
        rewrite Hsnoc, Array_splice_not_found.
        apply sublist_inserts_r. reflexivity.
    + destruct (data_json w) as [|a us] eqn:Hus.
      * rewrite Array_splice_empty. reflexivity.
      * destruct (nonempty_snoc (a :: us)) as (init & lst & Hsnoc);
          [discriminate|].
        rewrite Hsnoc, Array_splice_not_found, length_app.
        cbn [length]. lia.
  - destruct (delete_first_spec req w pre u post Hsplit Hpre Hu)
      as (w' & E & Hd & Ht).
    exists w'. split; [exact E|]. split; [|split; [|exact Ht]];
      rewrite Hd, Hsplit.
    + apply sublist_app; [reflexivity|]. apply sublist_cons. reflexivity.
    + rewrite !length_app. cbn [length]. lia.
Qed.

(** X7: GET and DELETE locate the same record.  When a stored record's
    id loosely equals the identifier, the record GET answers is the one
    DELETE takes out, at the place where GET found it. *)
Theorem get_and_delete_same_record req w :
  Exists (λ u, matches loose_eq req u = true) (data_json w) →
  ∃ pre u post w1 w2,
    data_json w = pre ++ u :: post
    ∧ app_get_userId loose_eq req w = (Return tt, w1)
    ∧ added w w1 [EvRead; EvJson (BodyObject u)]
    ∧ app_delete_userId loose_eq req w = (Return tt, w2)
    ∧ data_json w2 = pre ++ post.
Proof.
  intros Hex.
  destruct (first_match_exists loose_eq req _ Hex)
    as (pre & u & post & Hsplit & Hpre & Hu).
  destruct (get_first_spec req w pre u post Hsplit Hpre Hu)
    as (w1 & E1 & Ht1).
  destruct (delete_first_spec req w pre u post Hsplit Hpre Hu)
    as (w2 & E2 & Hd2 & _).
  exists pre, u, post, w1, w2. auto.
Qed.

(** X8: when exactly one stored record's id loosely equals the
    identifier, that identifier is gone after a DELETE: a GET for it
    answers an empty body and a PUT for it throws the TypeError and
    writes nothing. *)
Theorem delete_unique_then_gone req w pre u post :
  data_json w = pre ++ u :: post →
  Forall (λ v, matches loose_eq req v = false) pre →
  matches loose_eq req u = true →
  Forall (λ v, matches loose_eq req v = false) post →
  ∃ w1 w2 w3,
    app_delete_userId loose_eq req w = (Return tt, w1)
    ∧ data_json w1 = pre ++ post
    ∧ app_get_userId loose_eq req w1 = (Return tt, w2)
    ∧ added w1 w2 [EvRead; EvJson BodyNone]
    ∧ app_put_userId loose_eq req w1 = (Throw TypeError, w3)
    ∧ added w1 w3 [EvRead]
    ∧ data_json w3 = pre ++ post.
Proof.
  intros Hsplit Hpre Hu Hpost.
  destruct (delete_first_spec req w pre u post Hsplit Hpre Hu)
    as (w1 & E1 & Hd1 & _).
  assert (Hno : Forall (λ v, matches loose_eq req v = false) (data_json w1)).
  { rewrite Hd1. apply Forall_app. auto. }
  destruct (get_none_spec req w1 Hno) as (w2 & E2 & Ht2).
  destruct (put_none_spec req w1 Hno) as (w3 & E3 & Hd3 & Ht3).
  rewrite Hd1 in Hd3.
  exists w1, w2, w3. auto 10.
Qed.

(** X9: DELETE is not idempotent.  When exactly one stored record's
    id loosely equals the identifier and other records remain, a second
    DELETE for the same identifier takes out the last of those too. *)
Theorem delete_twice_removes_two req w pre u post init lst :
  data_json w = pre ++ u :: post →
  Forall (λ v, matches loose_eq req v = false) pre →
  matches loose_eq req u = true →
  Forall (λ v, matches loose_eq req v = false) post →
  pre ++ post = init ++ [lst] →
  ∃ w1 w2,
    app_delete_userId loose_eq req w = (Return tt, w1)
    ∧ data_json w1 = init ++ [lst]
    ∧ app_delete_userId loose_eq req w1 = (Return tt, w2)
    ∧ data_json w2 = init
    ∧ length (data_json w) = S (S (length (data_json w2))).
Proof.
  intros Hsplit Hpre Hu Hpost Hrest.
  destruct (delete_first_spec req w pre u post Hsplit Hpre Hu)
    as (w1 & E1 & Hd1 & _).
  rewrite Hrest in Hd1.
  assert (Hno : Forall (λ v, matches loose_eq req v = false) (data_json w1)).
  { rewrite Hd1, <- Hrest. apply Forall_app. auto. }
  destruct (delete_none_spec req w1 Hno) as (w2 & E2 & Hd2 & _).
  rewrite Hd1, Array_splice_not_found in Hd2.
  exists w1, w2. split; [exact E1|]. split; [exact Hd1|].
  split; [exact E2|]. split; [exact Hd2|].
  assert (Hlen : length (pre ++ post) = S (length init))
    by (rewrite Hrest, length_app; cbn [length]; lia).
  rewrite length_app in Hlen.
  rewrite Hd2, Hsplit, length_app. cbn [length]. lia.
Qed.

(** X10: [splice(start, 1)] takes out at most the one element at the
    position [start] denotes: a negative [start] counts from the end
    and stops at the first element, and a [start] at or beyond the end
    takes out nothing. *)
Theorem Array_splice_one_deletes {A} (start : Z) (l : list A) :
  let len := Z.of_nat (length l) in
  let i := if start <? 0 then Z.max (len + start) 0 else start in
  Array_splice start 1 l = delete (Z.to_nat i) l.
Proof.
  intros len i. rewrite delete_take_drop. unfold Array_splice.
  fold len. subst i. destruct (start <? 0) eqn:Hneg.
  - apply Z.ltb_lt in Hneg.
    destruct (Z.max_spec (len + start) 0) as [[Hlt ->] | [Hge ->]].
    + destruct l as [|a l]; [reflexivity|].
      cbn [length] in len. rewrite Z.max_l, Z.min_l by lia.
      cbn [Z.to_nat Z.add]. reflexivity.
    + rewrite Z.max_l by lia. rewrite Z.min_l by lia.
      replace (Z.to_nat (len + start + 1)) with (S (Z.to_nat (len + start)))
        by lia.
      reflexivity.
  - apply Z.ltb_ge in Hneg.
    destruct (Z.min_spec start len) as [[Hlt ->] | [Hge ->]].
    + rewrite Z.max_l, Z.min_l by lia.
      replace (Z.to_nat (start + 1)) with (S (Z.to_nat start)) by lia.
      reflexivity.
    + rewrite Z.max_l by lia. rewrite Z.min_r by lia.
      rewrite !take_ge, !drop_ge by lia. reflexivity.
Qed.

(** ** Update *)

(** ** Update *)

Lemma existsb_matches_none req us :
  Forall (λ u, matches loose_eq req u = false) us →
  existsb (matches loose_eq req) us = false.
Proof.
  induction 1 as [|u us Hu _ IH]; [reflexivity|].
  cbn [existsb]. rewrite Hu, IH. reflexivity.
Qed.

Lemma existsb_matches_first req pre u post :
  matches loose_eq req u = true →
  existsb (matches loose_eq req) (pre ++ u :: post) = true.
Proof.
  intros Hu. rewrite existsb_app. cbn [existsb]. rewrite Hu.
  rewrite orb_true_l. apply orb_true_r.
Qed.

(** X11: PUT ends normally exactly when some stored record's id loosely
    equals the identifier; in every other case, the empty collection
    included, it throws the TypeError. *)
Theorem put_outcome req w :
  (app_put_userId loose_eq req w).1
  = if existsb (matches loose_eq req) (data_json w)
    then Return tt else Throw TypeError.
Proof.
  destruct (first_match_split loose_eq req (data_json w))
    as [Hno | (pre & u & post & Hsplit & Hpre & Hu)].
  - destruct (put_none_spec req w Hno) as (w' & E & _).
    rewrite E, (existsb_matches_none req _ Hno). reflexivity.
  - destruct (put_first_spec req w pre u post Hsplit Hpre Hu) as (w' & E & _).
    rewrite E, Hsplit, (existsb_matches_first req pre u post Hu). reflexivity.
Qed.

(** X12: PUT never touches an id and never adds or drops a record:
    whatever the request, the ids stored after it are the ids stored
    before it, in the same order. *)
Theorem put_preserves_ids req w :
  map id (data_json (app_put_userId loose_eq req w).2) = map id (data_json w)
  ∧ length (data_json (app_put_userId loose_eq req w).2)
    = length (data_json w).
Proof.
  assert (Hids : map id (data_json (app_put_userId loose_eq req w).2)
                 = map id (data_json w)).
  { destruct (first_match_split loose_eq req (data_json w))
      as [Hno | (pre & u & post & Hsplit & Hpre & Hu)].
    - destruct (put_none_spec req w Hno) as (w' & E & Hd & _).
      rewrite E. cbn [snd]. rewrite Hd. reflexivity.
    - destruct (put_first_spec req w pre u post Hsplit Hpre Hu)
        as (w' & E & Hd).
      rewrite E. cbn [snd]. rewrite Hd, Hsplit, !map_app. reflexivity. }
  split; [exact Hids|].
  rewrite <- (length_map id), Hids. apply length_map.
Qed.

(** X13: the last PUT wins.  When a stored record's id loosely equals
    the identifier, two PUTs for it in a row leave in storage what the
    second alone would have left; with the same body twice, PUT is
    idempotent. *)
Theorem put_twice_last_wins req1 req2 w :
  params_userId req2 = params_userId req1 →
  Exists (λ u, matches loose_eq req1 u = true) (data_json w) →
  ∃ w1 w2 w2',
    app_put_userId loose_eq req1 w = (Return tt, w1)
    ∧ app_put_userId loose_eq req2 w1 = (Return tt, w2)
    ∧ app_put_userId loose_eq req2 w = (Return tt, w2')
    ∧ data_json w2 = data_json w2'.
Proof.
  intros Hsame Hex.
  destruct (first_match_exists loose_eq req1 _ Hex)
    as (pre & u & post & Hsplit & Hpre & Hu).
  pose proof (Forall_matches_same_userId req1 req2 pre Hsame Hpre) as Hpre2.
  assert (Hu2 : matches loose_eq req2 u = true)
    by (rewrite (matches_same_userId req1 req2 u Hsame); exact Hu).
  destruct (put_first_spec req1 w pre u post Hsplit Hpre Hu)
    as (w1 & E1 & Hd1).
  destruct (put_first_spec req2 w1 pre _ post Hd1 Hpre2 Hu2)
    as (w2 & E2 & Hd2).
  destruct (put_first_spec req2 w pre u post Hsplit Hpre2 Hu2)
    as (w2' & E2' & Hd2').
  exists w1, w2, w2'. split; [exact E1|]. split; [exact E2|].
  split; [exact E2'|]. rewrite Hd2, Hd2'. reflexivity.
Qed.

(** X14: a PUT does not change which record a DELETE for the same
    identifier takes out: PUT then DELETE leaves in storage what DELETE
    alone would have left, so the update is lost with the record. *)
Theorem put_then_delete req req' w :
  params_userId req' = params_userId req →
  Exists (λ u, matches loose_eq req u = true) (data_json w) →
  ∃ w1 w2 w2',
    app_put_userId loose_eq req w = (Return tt, w1)
    ∧ app_delete_userId loose_eq req' w1 = (Return tt, w2)
    ∧ app_delete_userId loose_eq req' w = (Return tt, w2')
    ∧ data_json w2 = data_json w2'
    ∧ S (length (data_json w2)) = length (data_json w).
Proof.
  intros Hsame Hex.
  destruct (first_match_exists loose_eq req _ Hex)
    as (pre & u & post & Hsplit & Hpre & Hu).
  pose proof (Forall_matches_same_userId req req' pre Hsame Hpre) as Hpre'.
  assert (Hu' : matches loose_eq req' u = true)
    by (rewrite (matches_same_userId req req' u Hsame); exact Hu).
  destruct (put_first_spec req w pre u post Hsplit Hpre Hu)
    as (w1 & E1 & Hd1).
  destruct (delete_first_spec req' w1 pre _ post Hd1 Hpre' Hu')
    as (w2 & E2 & Hd2 & _).
  destruct (delete_first_spec req' w pre u post Hsplit Hpre' Hu')
    as (w2' & E2' & Hd2' & _).
  exists w1, w2, w2'. split; [exact E1|]. split; [exact E2|].
  split; [exact E2'|]. rewrite Hd2, Hd2'. split; [reflexivity|].
  rewrite Hsplit, !length_app. cbn [length]. lia.
Qed.

(** ** Find and findIndex *)

(** X15: on an array of records, [findIndex] with the id callback
    answers [-1] or a position inside the array, and [find] with the
    same callback answers [undefined] in the first case and the element
    at that position in the second. *)
Theorem find_and_findIndex_agree req w arr us :
  points_to (heap w) arr us →
  ∃ k,
    Array_findIndex (id_matches loose_eq req) arr w = (Return k, w)
    ∧ -1 ≤ k < Z.of_nat (length arr)
    ∧ Array_find (id_matches loose_eq req) arr w
      = (Return (if k <? 0 then None else arr !! Z.to_nat k), w).
Proof.
  intros Hpts.
  destruct (first_match_split loose_eq req us)
    as [Hno | (pre & u & post & -> & Hpre & Hu)].
  - exists (-1). split; [eapply Array_findIndex_none; eassumption|].
    split; [lia|]. eapply Array_find_none; eassumption.
  - pose proof (Array_findIndex_first loose_eq req w arr pre u post
                  Hpts Hpre Hu) as Ei.
    destruct (points_to_split _ _ _ _ _ Hpts)
      as (apre & l & apost & -> & Hapre & Hl & _).
    exists (Z.of_nat (length pre)). split; [exact Ei|].
    rewrite <- (points_to_length _ _ _ Hapre).
    split; [rewrite length_app; cbn [length]; lia|].
    rewrite (Array_find_first loose_eq req w apre pre l u apost)
      by assumption.
    replace (Z.of_nat (length apre) <? 0) with false
      by (symmetry; apply Z.ltb_ge; lia).
    rewrite Nat2Z.id, list_lookup_middle by reflexivity. reflexivity.
Qed.

(** ** Other identifiers *)

(** X16: a PUT for one identifier does not change what GET answers for
    another: when the record the PUT rewrites has an id that does not
    loosely equal the other identifier, a GET for that other identifier
    answers the same body after the PUT as before. *)
Theorem put_keeps_other_answers req req' w pre u post :
  data_json w = pre ++ u :: post →
  Forall (λ v, matches loose_eq req v = false) pre →
  matches loose_eq req u = true →
  matches loose_eq req' u = false →
  ∃ b w0 w1 w2,
    app_get_userId loose_eq req' w = (Return tt, w0)
    ∧ added w w0 [EvRead; EvJson b]
    ∧ app_put_userId loose_eq req w = (Return tt, w1)
    ∧ app_get_userId loose_eq req' w1 = (Return tt, w2)
    ∧ added w1 w2 [EvRead; EvJson b].
Proof.
  intros Hsplit Hpre Hu Hother.
  destruct (get_find_spec req' w) as (w0 & E0 & Ht0).
  destruct (put_first_spec req w pre u post Hsplit Hpre Hu)
    as (w1 & E1 & Hd1).
  destruct (get_find_spec req' w1) as (w2 & E2 & Ht2).
  eexists _, w0, w1, w2. split; [exact E0|]. split; [exact Ht0|].
  split; [exact E1|]. split; [exact E2|].
  unfold added in Ht2 |- *. rewrite Ht2. do 4 f_equal.
  rewrite Hd1, Hsplit, !find_skip. cbn [List.find].
  replace (matches loose_eq req'
             (mkUser (id u) (to_json_value (body_name req))
                (to_json_value (body_role req))))
    with false by (symmetry; exact Hother).
  rewrite Hother. reflexivity.
Qed.

(** X17: a DELETE for one identifier does not change what GET answers
    for another: when the record the DELETE takes out has an id that
    does not loosely equal the other identifier, a GET for that other
    identifier answers the same body after the DELETE as before. *)
Theorem delete_keeps_other_answers req req' w pre u post :
  data_json w = pre ++ u :: post →
  Forall (λ v, matches loose_eq req v = false) pre →
  matches loose_eq req u = true →
  matches loose_eq req' u = false →
  ∃ b w0 w1 w2,
    app_get_userId loose_eq req' w = (Return tt, w0)
    ∧ added w w0 [EvRead; EvJson b]
    ∧ app_delete_userId loose_eq req w = (Return tt, w1)
    ∧ app_get_userId loose_eq req' w1 = (Return tt, w2)
    ∧ added w1 w2 [EvRead; EvJson b].
Proof.
  intros Hsplit Hpre Hu Hother.
  destruct (get_find_spec req' w) as (w0 & E0 & Ht0).
  destruct (delete_first_spec req w pre u post Hsplit Hpre Hu)
    as (w1 & E1 & Hd1 & _).
  destruct (get_find_spec req' w1) as (w2 & E2 & Ht2).
  eexists _, w0, w1, w2. split; [exact E0|]. split; [exact Ht0|].
  split; [exact E1|]. split; [exact E2|].
  unfold added in Ht2 |- *. rewrite Ht2. do 4 f_equal.
  rewrite Hd1, Hsplit, !find_skip. cbn [List.find]. rewrite Hother.
  reflexivity.
Qed.

End Together.

(** ** The routes together, on concrete collections *)

(** POST Bo on [Ann], then GET [/0]. *)
Lemma post_then_get_new_witness :
  (Forall (λ u, matches Fixture.loose_eq Fixture.req_0 u = false)
     (data_json Fixture.w_ann)
   ∧ Fixture.loose_eq
       (VNum (Fixture.random_source (draws Fixture.w_ann)))
       (params_userId Fixture.req_0) = true)
  ∧ ∃ w1 w2,
      app_post Fixture.random_source Fixture.req_post_bo Fixture.w_ann
        = (Return tt, w1)
      ∧ app_get_userId Fixture.loose_eq Fixture.req_0 w1 = (Return tt, w2)
      ∧ added w1 w2
          [EvRead;
           EvJson (BodyObject
             (mkUser (VNum (Fixture.random_source (draws Fixture.w_ann)))
                (to_json_value (body_name Fixture.req_post_bo))
                (to_json_value (body_role Fixture.req_post_bo))))].
Proof.
  split.
  - split; [repeat constructor | reflexivity].
  - apply (post_then_get_new Fixture.loose_eq Fixture.random_source
             Fixture.req_post_bo Fixture.req_0 Fixture.w_ann);
      [repeat constructor | reflexivity].
Defined.

(** POST Bo on Ann, Bo, Cy, with GET [/2] before and after. *)
Lemma post_keeps_first_match_witness :
  Exists (λ u, matches Fixture.loose_eq Fixture.req_2 u = true)
    (data_json Fixture.w_three)
  ∧ ∃ u w0 w1 w2,
      app_get_userId Fixture.loose_eq Fixture.req_2 Fixture.w_three
        = (Return tt, w0)
      ∧ added Fixture.w_three w0 [EvRead; EvJson (BodyObject u)]
      ∧ app_post Fixture.random_source Fixture.req_post_bo Fixture.w_three
        = (Return tt, w1)
      ∧ app_get_userId Fixture.loose_eq Fixture.req_2 w1 = (Return tt, w2)
      ∧ added w1 w2 [EvRead; EvJson (BodyObject u)].
Proof.
  split.
  - apply Exists_cons_tl, Exists_cons_hd. reflexivity.
  - apply (post_keeps_first_match Fixture.loose_eq Fixture.random_source
             Fixture.req_post_bo Fixture.req_2 Fixture.w_three).
    apply Exists_cons_tl, Exists_cons_hd. reflexivity.
Defined.

(** POST Bo on Ann, Bo, Cy, then DELETE [/7]. *)
Lemma post_then_delete_restores_witness :
  Forall (λ u, matches Fixture.loose_eq Fixture.req_7 u = false)
    (data_json Fixture.w_three)
  ∧ ∃ w1 w2,
      app_post Fixture.random_source Fixture.req_post_bo Fixture.w_three
        = (Return tt, w1)
      ∧ app_delete_userId Fixture.loose_eq Fixture.req_7 w1 = (Return tt, w2)
      ∧ data_json w2 = data_json Fixture.w_three
      ∧ added w1 w2
          [EvRead; EvLog (data_json Fixture.w_three);
           EvWrite (data_json Fixture.w_three); EvEnd].
Proof.
  split; [repeat constructor|].
  apply (post_then_delete_restores Fixture.loose_eq Fixture.random_source
           Fixture.req_post_bo Fixture.req_7 Fixture.w_three).
  repeat constructor.
Defined.

(** GET [/2] and DELETE [/2] on Ann, Bo, Cy. *)
Lemma get_and_delete_same_record_witness :
  Exists (λ u, matches Fixture.loose_eq Fixture.req_2 u = true)
    (data_json Fixture.w_three)
  ∧ ∃ pre u post w1 w2,
      data_json Fixture.w_three = pre ++ u :: post
      ∧ app_get_userId Fixture.loose_eq Fixture.req_2 Fixture.w_three
        = (Return tt, w1)
      ∧ added Fixture.w_three w1 [EvRead; EvJson (BodyObject u)]
      ∧ app_delete_userId Fixture.loose_eq Fixture.req_2 Fixture.w_three
        = (Return tt, w2)
      ∧ data_json w2 = pre ++ post.
Proof.
  split.
  - apply Exists_cons_tl, Exists_cons_hd. reflexivity.
  - apply (get_and_delete_same_record Fixture.loose_eq
             Fixture.req_2 Fixture.w_three).
    apply Exists_cons_tl, Exists_cons_hd. reflexivity.
Defined.

(** DELETE [/1] on Ann, Bo, then GET [/1] and PUT [/1]. *)
Lemma delete_unique_then_gone_witness :
  (data_json Fixture.w_two = [] ++ Fixture.ann :: [Fixture.bo]
   ∧ matches Fixture.loose_eq Fixture.req_1 Fixture.ann = true
   ∧ Forall (λ v, matches Fixture.loose_eq Fixture.req_1 v = false)
       [Fixture.bo])
  ∧ ∃ w1 w2 w3,
      app_delete_userId Fixture.loose_eq Fixture.req_1 Fixture.w_two
        = (Return tt, w1)
      ∧ data_json w1 = [] ++ [Fixture.bo]
      ∧ app_get_userId Fixture.loose_eq Fixture.req_1 w1 = (Return tt, w2)
      ∧ added w1 w2 [EvRead; EvJson BodyNone]
      ∧ app_put_userId Fixture.loose_eq Fixture.req_1 w1
        = (Throw TypeError, w3)
      ∧ added w1 w3 [EvRead]
      ∧ data_json w3 = [] ++ [Fixture.bo].
Proof.
  split.
  - split; [reflexivity|]. split; [reflexivity | repeat constructor].
  - apply (delete_unique_then_gone Fixture.loose_eq Fixture.req_1
             Fixture.w_two [] Fixture.ann [Fixture.bo]);
      [reflexivity | constructor | reflexivity | repeat constructor].
Defined.

(** DELETE [/1] twice on Ann, Bo. *)
Lemma delete_twice_removes_two_witness :
  (data_json Fixture.w_two = [] ++ Fixture.ann :: [Fixture.bo]
   ∧ matches Fixture.loose_eq Fixture.req_1 Fixture.ann = true
   ∧ Forall (λ v, matches Fixture.loose_eq Fixture.req_1 v = false)
       [Fixture.bo])
  ∧ ∃ w1 w2,
      app_delete_userId Fixture.loose_eq Fixture.req_1 Fixture.w_two
        = (Return tt, w1)
      ∧ data_json w1 = [] ++ [Fixture.bo]
      ∧ app_delete_userId Fixture.loose_eq Fixture.req_1 w1 = (Return tt, w2)
      ∧ data_json w2 = []
      ∧ length (data_json Fixture.w_two) = S (S (length (data_json w2))).
Proof.
  split.
  - split; [reflexivity|]. split; [reflexivity | repeat constructor].
  - apply (delete_twice_removes_two Fixture.loose_eq Fixture.req_1
             Fixture.w_two [] Fixture.ann [Fixture.bo] [] Fixture.bo);
      [reflexivity | constructor | reflexivity | repeat constructor
      | reflexivity].
Defined.

(** PUT [/2] twice on Ann, Bo, Cy, the second time with another body. *)
Lemma put_twice_last_wins_witness :
  (params_userId (Fixture.request "2" (VStr "Yan") VUndefined)
     = params_userId Fixture.req_2
   ∧ Exists (λ u, matches Fixture.loose_eq Fixture.req_2 u = true)
       (data_json Fixture.w_three))
  ∧ ∃ w1 w2 w2',
      app_put_userId Fixture.loose_eq Fixture.req_2 Fixture.w_three
        = (Return tt, w1)
      ∧ app_put_userId Fixture.loose_eq
          (Fixture.request "2" (VStr "Yan") VUndefined) w1 = (Return tt, w2)
      ∧ app_put_userId Fixture.loose_eq
          (Fixture.request "2" (VStr "Yan") VUndefined) Fixture.w_three
        = (Return tt, w2')
      ∧ data_json w2 = data_json w2'.
Proof.
  split.
  - split; [reflexivity|]. apply Exists_cons_tl, Exists_cons_hd. reflexivity.
  - apply (put_twice_last_wins Fixture.loose_eq Fixture.req_2
             (Fixture.request "2" (VStr "Yan") VUndefined) Fixture.w_three);
      [reflexivity|]. apply Exists_cons_tl, Exists_cons_hd. reflexivity.
Defined.

(** PUT [/2] then DELETE [/2] on Ann, Bo, Cy. *)
Lemma put_then_delete_witness :
  (params_userId Fixture.req_2 = params_userId Fixture.req_2
   ∧ Exists (λ u, matches Fixture.loose_eq Fixture.req_2 u = true)
       (data_json Fixture.w_three))
  ∧ ∃ w1 w2 w2',
      app_put_userId Fixture.loose_eq Fixture.req_2 Fixture.w_three
        = (Return tt, w1)
      ∧ app_delete_userId Fixture.loose_eq Fixture.req_2 w1 = (Return tt, w2)
      ∧ app_delete_userId Fixture.loose_eq Fixture.req_2 Fixture.w_three
        = (Return tt, w2')
      ∧ data_json w2 = data_json w2'
      ∧ S (length (data_json w2)) = length (data_json Fixture.w_three).
Proof.
  split.
  - split; [reflexivity|]. apply Exists_cons_tl, Exists_cons_hd. reflexivity.
  - apply (put_then_delete Fixture.loose_eq Fixture.req_2 Fixture.req_2
             Fixture.w_three);
      [reflexivity|]. apply Exists_cons_tl, Exists_cons_hd. reflexivity.
Defined.

(** [find] and [findIndex] for [/1] on an array whose one reference
    points to Ann. *)
Lemma find_and_findIndex_agree_witness :
  points_to (heap Fixture.w_heap_ann) [1%positive] [Fixture.ann]
  ∧ ∃ k,
      Array_findIndex (id_matches Fixture.loose_eq Fixture.req_1)
        [1%positive] Fixture.w_heap_ann
        = (Return k, Fixture.w_heap_ann)
      ∧ -1 ≤ k < Z.of_nat (length [1%positive])
      ∧ Array_find (id_matches Fixture.loose_eq Fixture.req_1)
          [1%positive] Fixture.w_heap_ann
        = (Return (if k <? 0 then None else [1%positive] !! Z.to_nat k),
           Fixture.w_heap_ann).
Proof.
  split.
  - repeat constructor.
  - apply (find_and_findIndex_agree Fixture.loose_eq Fixture.req_1
             Fixture.w_heap_ann [1%positive] [Fixture.ann]).
    repeat constructor.
Defined.

(** PUT [/2] on Ann, Bo, Cy, with GET [/1] before and after. *)
Lemma put_keeps_other_answers_witness :
  (data_json Fixture.w_three = [Fixture.ann] ++ Fixture.bo :: [Fixture.cy]
   ∧ Forall (λ v, matches Fixture.loose_eq Fixture.req_2 v = false)
       [Fixture.ann]
   ∧ matches Fixture.loose_eq Fixture.req_2 Fixture.bo = true
   ∧ matches Fixture.loose_eq Fixture.req_1 Fixture.bo = false)
  ∧ ∃ b w0 w1 w2,
      app_get_userId Fixture.loose_eq Fixture.req_1 Fixture.w_three
        = (Return tt, w0)
      ∧ added Fixture.w_three w0 [EvRead; EvJson b]
      ∧ app_put_userId Fixture.loose_eq Fixture.req_2 Fixture.w_three
        = (Return tt, w1)
      ∧ app_get_userId Fixture.loose_eq Fixture.req_1 w1 = (Return tt, w2)
      ∧ added w1 w2 [EvRead; EvJson b].
Proof.
  split.
  - split; [reflexivity|]. split; [repeat constructor|].
    split; reflexivity.
  - apply (put_keeps_other_answers Fixture.loose_eq Fixture.req_2
             Fixture.req_1 Fixture.w_three
             [Fixture.ann] Fixture.bo [Fixture.cy]);
      [reflexivity | repeat constructor | reflexivity | reflexivity].
Defined.

(** DELETE [/2] on Ann, Bo, Cy, with GET [/1] before and after. *)
Lemma delete_keeps_other_answers_witness :
  (data_json Fixture.w_three = [Fixture.ann] ++ Fixture.bo :: [Fixture.cy]
   ∧ Forall (λ v, matches Fixture.loose_eq Fixture.req_2 v = false)
       [Fixture.ann]
   ∧ matches Fixture.loose_eq Fixture.req_2 Fixture.bo = true
   ∧ matches Fixture.loose_eq Fixture.req_1 Fixture.bo = false)
  ∧ ∃ b w0 w1 w2,
      app_get_userId Fixture.loose_eq Fixture.req_1 Fixture.w_three
        = (Return tt, w0)
      ∧ added Fixture.w_three w0 [EvRead; EvJson b]
      ∧ app_delete_userId Fixture.loose_eq Fixture.req_2 Fixture.w_three
        = (Return tt, w1)
      ∧ app_get_userId Fixture.loose_eq Fixture.req_1 w1 = (Return tt, w2)
      ∧ added w1 w2 [EvRead; EvJson b].
Proof.
  split.
  - split; [reflexivity|]. split; [repeat constructor|].
    split; reflexivity.
  - apply (delete_keeps_other_answers Fixture.loose_eq Fixture.req_2
             Fixture.req_1 Fixture.w_three
             [Fixture.ann] Fixture.bo [Fixture.cy]);
      [reflexivity | repeat constructor | reflexivity | reflexivity].
Defined.
